(** * The 'www' application: its middleware pipeline (app-www/app-www.js)

    A shallow embedding of the Koa middleware declared in [app-www.js] and of
    the order in which [app.use] registers them, with the properties of the
    pipeline proved over it.

    - JavaScript strings are sequences of UTF-16 code units.
    - JavaScript values are an inductive type; a plain object is a finite map
      from property names to values.
    - A middleware is a function from the continuation [next] to a
      computation over the state of one request, which either returns or
      throws an error value. *)

From Stdlib Require Import String Ascii ZArith.
From stdpp Require Import gmap list fin_maps.

Local Open Scope Z_scope.

(** ** JavaScript strings *)

Module JsString.

(** A string is the list of its UTF-16 code units. *)
Definition code_unit := N.
Abbreviation jsstring := (list N).

(** String literals of the source, all of them ASCII. *)
Definition js (s : string) : jsstring :=
  N_of_ascii <$> list_ascii_of_string s.

(** [WhiteSpace] and [LineTerminator] code points of ECMAScript: the
    characters [String.prototype.trim] strips. *)
Definition is_white_space (c : code_unit) : bool :=
  ((c =? 9) || (c =? 10) || (c =? 11) || (c =? 12) || (c =? 13) || (c =? 32)
   || (c =? 160) || (c =? 5760) || ((8192 <=? c) && (c <=? 8202))
   || (c =? 8232) || (c =? 8233) || (c =? 8239) || (c =? 8287)
   || (c =? 12288) || (c =? 65279))%N.

(** [s.trimStart()] *)
Fixpoint trimStart (s : jsstring) : jsstring :=
  match s with
  | c :: s' => if is_white_space c then trimStart s' else s
  | [] => []
  end.

(** [s.trimEnd()] *)
Definition trimEnd (s : jsstring) : jsstring :=
  reverse (trimStart (reverse s)).

(** [s.trim()] *)
Definition trim (s : jsstring) : jsstring := trimEnd (trimStart s).

(** [s.startsWith(p)], the test [replace] makes at each position. *)
Fixpoint starts_with (p s : jsstring) : bool :=
  match p, s with
  | [], _ => true
  | a :: p', b :: s' => (a =? b)%N && starts_with p' s'
  | _ :: _, [] => false
  end.

(** [s.replace(pat, rep)] with a string pattern: the first occurrence of
    [pat], wherever it is, is replaced; a string without one is returned as
    it is. ([rep] is taken literally: the source's replacement is the empty
    string, which has no [$] pattern.) *)
Fixpoint replace (s pat rep : jsstring) : jsstring :=
  if starts_with pat s then rep ++ drop (length pat) s
  else match s with
       | [] => []
       | c :: s' => c :: replace s' pat rep
       end.

End JsString.
Export JsString.

(** ** JavaScript values *)

(** The values a parsed body holds. An array is an object whose keys are its
    indices; an uploaded file is an object too. Numbers that occur in form
    data are integers. *)
#[warnings="-register-all"]
Inductive value : Type :=
  | VUndefined
  | VNull
  | VBool (b : bool)
  | VNum (n : Z)
  | VStr (s : jsstring)
  | VObj (o : gmap jsstring value).

(** [typeof v == 'string'] *)
Definition is_string (v : value) : bool :=
  match v with VStr _ => true | _ => false end.

(** [o[key]] *)
Definition get (o : gmap jsstring value) (key : jsstring) : value :=
  default VUndefined (o !! key).

(** [key in o] for a plain object *)
Definition has_key (key : jsstring) (o : gmap jsstring value) : bool :=
  bool_decide (is_Some (o !! key)).

(** The keys a [for (const key in o)] loop visits. The loop of [cleanPost]
    only assigns to keys that exist, so the set of keys is the same at every
    iteration. *)
Definition for_in_keys (o : gmap jsstring value) : list jsstring :=
  (map_to_list o).*1.

(** ** Errors, template contexts and the state of one request *)

(** The value a middleware throws: an [Error] object, whose [status] is
    absent unless something (such as [ctx.throw]) has set it, or one of
    null and undefined ([throw null], [Promise.reject()]), which have no
    property to read. *)
Inductive error : Type :=
  | Error (status : option Z) (message : jsstring)
  | Nullish.

(** The [status] and the [message] of an [Error] object. Reading them off
    null or undefined throws: see [read_status]. *)
Definition err_status (e : error) : option Z :=
  match e with
  | Error status _ => status
  | Nullish => None
  end.

Definition err_message (e : error) : jsstring :=
  match e with
  | Error _ message => message
  | Nullish => []
  end.

(** An argument of [console.error]. *)
Inductive printed : Type :=
  | PNum (n : Z)
  | PStr (s : jsstring).

(** What a template context binds a name to. *)
Inductive binding : Type :=
  | BNull
  | BStr (s : jsstring)
  | BErr (e : error).

(** A template context is an object literal: its properties in order. *)
Abbreviation view_context := (list (jsstring * binding)).

(** The Koa context [ctx] of one request, as a record of the properties
    the middleware use. Reading a property gives the value stored; the
    status is assigned through Koa's setter, [ctx_set_status] below. *)
Record ctx : Type := Ctx {
  ctx_method : jsstring;
  ctx_path : jsstring;
  ctx_host : jsstring;                (* ctx.host *)
  ctx_request_body : value;           (* ctx.request.body *)
  ctx_status : Z;                     (* ctx.status *)
  ctx_body : option jsstring;         (* ctx.body, once something rendered *)
  ctx_state_domain : option jsstring  (* ctx.state.domain *)
}.

(** One record of the access log. *)
Record access : Type := Access {
  acc_method : jsstring;
  acc_path : jsstring;
  acc_status : Z;
  acc_duration : Z
}.

(** Everything a middleware can read or change while it serves a request:
    the context, the clock [Date.now()] reads, and the traces of the calls
    made to the collaborators. *)
Record world : Type := World {
  w_ctx : ctx;
  w_now : Z;                                    (* Date.now(), in ms *)
  w_access : list access;                       (* calls of Log.access *)
  w_console : list (list printed);              (* calls of console.error *)
  w_rendered : list (jsstring * view_context);  (* calls of ctx.render *)
  w_emitted : list (jsstring * error)           (* calls of ctx.app.emit *)
}.

Definition set_ctx (c : ctx) (w : world) : world :=
  World c (w_now w) (w_access w) (w_console w) (w_rendered w) (w_emitted w).

Definition set_request_body (b : value) (c : ctx) : ctx :=
  Ctx (ctx_method c) (ctx_path c) (ctx_host c) b (ctx_status c) (ctx_body c)
      (ctx_state_domain c).

Definition set_status (st : Z) (c : ctx) : ctx :=
  Ctx (ctx_method c) (ctx_path c) (ctx_host c) (ctx_request_body c) st
      (ctx_body c) (ctx_state_domain c).

Definition set_body (b : jsstring) (c : ctx) : ctx :=
  Ctx (ctx_method c) (ctx_path c) (ctx_host c) (ctx_request_body c)
      (ctx_status c) (Some b) (ctx_state_domain c).

Definition set_state_domain (d : jsstring) (c : ctx) : ctx :=
  Ctx (ctx_method c) (ctx_path c) (ctx_host c) (ctx_request_body c)
      (ctx_status c) (ctx_body c) (Some d).

(** ** Computations that may throw *)

Inductive outcome (A : Type) : Type :=
  | Returned (a : A)
  | Thrown (e : error).
Arguments Returned {A} a.
Arguments Thrown {A} e.

(** An [async] function body, run to completion on the state of a request. *)
Definition M (A : Type) : Type := world -> outcome A * world.

Definition ret {A} (a : A) : M A := fun w => (Returned a, w).

Definition throw {A} (e : error) : M A := fun w => (Thrown e, w).

Definition bind {A B} (m : M A) (k : A -> M B) : M B :=
  fun w => match m w with
           | (Returned a, w') => k a w'
           | (Thrown e, w') => (Thrown e, w')
           end.

(** [try { m } catch (e) { h e }] *)
Definition try_catch {A} (m : M A) (h : error -> M A) : M A :=
  fun w => match m w with
           | (Returned a, w') => (Returned a, w')
           | (Thrown e, w') => h e w'
           end.

Definition gets {A} (f : world -> A) : M A := fun w => (Returned (f w), w).

Definition modify (f : world -> world) : M unit :=
  fun w => (Returned tt, f w).

Definition modify_ctx (f : ctx -> ctx) : M unit :=
  modify (fun w => set_ctx (f (w_ctx w)) w).

(** stdpp's notations [x ← m; k] and [m;; k] for sequencing. *)
#[global] Instance M_ret : MRet M := @ret.
#[global] Instance M_bind : MBind M := fun A B k m => bind m k.

(** A middleware gets the rest of the chain as [next]; [ctx] is in the
    state. *)
Definition middleware : Type := M unit -> M unit.

(** ** The middleware of app-www.js *)

(** [a == b] on two strings *)
Definition str_eq (a b : jsstring) : bool := bool_decide (a = b).

(** [const maxage = app.env=='production' ? 1000*60*60*24 : 1000;] *)
Definition maxage (env : jsstring) : Z :=
  if str_eq env (js "production") then 1000 * 60 * 60 * 24 else 1000.

(** [Date.now()] *)
Definition Date_now : M Z := gets w_now.

(** Modelled from the spec: [Log.access] of lib/log.js, the log sink, which
    takes the request context and a duration and persists an access record
    (method, path, status, duration). *)
Definition Log_access (duration : Z) : M unit :=
  modify (fun w =>
    let c := w_ctx w in
    World c (w_now w)
          (w_access w ++ [Access (ctx_method c) (ctx_path c) (ctx_status c)
                                 duration])
          (w_console w) (w_rendered w) (w_emitted w)).

(** [logAccess]: log requests. *)
Definition logAccess : middleware := fun next =>
  t1 ← Date_now;
  next ;;
  t2 ← Date_now;
  Log_access (t2 - t1).

(** [console.error(status, message)] *)
Definition console_error (status : Z) (message : jsstring) : M unit :=
  modify (fun w =>
    World (w_ctx w) (w_now w) (w_access w)
          (w_console w ++ [[PNum status; PStr message]]) (w_rendered w)
          (w_emitted w)).

(** [e.status || 500]: an absent status and the falsy status 0 give the
    default. *)
Definition status_or (status : option Z) (dflt : Z) : Z :=
  match status with
  | Some n => if n =? 0 then dflt else n
  | None => dflt
  end.

(** The error [ctx.throw(404)] creates: status 404 and the reason phrase of
    404 as its message. *)
Definition http_error_404 : error := Error (Some 404) (js "Not Found").

(** The [TypeError] of the engine; it has no status. *)
Definition TypeError (message : string) : error := Error None (js message).

(** The [AssertionError] of Node's [assert]; it has no status. *)
Definition AssertionError (message : string) : error :=
  Error None (js message).

(** [e.status]: a [TypeError] when [e] is null or undefined. *)
Definition read_status (e : error) : M (option Z) :=
  match e with
  | Error status _ => ret status
  | Nullish => throw (TypeError "Cannot read properties of null (reading 'status')")
  end.

(** [code >= 100 && code <= 999] *)
Definition is_http_status (code : Z) : bool :=
  (100 <=? code) && (code <=? 999).

(** [statuses.empty[code]]: the statuses of a response without a body. *)
Definition empty_status (code : Z) : bool :=
  (code =? 204) || (code =? 205) || (code =? 304).

(** [this.body], as a condition: there is a body and it is not the empty
    string. *)
Definition has_body (c : ctx) : bool :=
  match ctx_body c with
  | Some (_ :: _) => true
  | _ => false
  end.

(** [this.body = null] *)
Definition clear_body (c : ctx) : ctx :=
  Ctx (ctx_method c) (ctx_path c) (ctx_host c) (ctx_request_body c)
      (ctx_status c) None (ctx_state_domain c).

(** [ctx.status = code]: the setter of Koa's response, before the headers
    are sent. It asserts that the code is in 100..999 (the message of the
    assertion ends with the code), stores the code, and drops the body when
    the status is one of a response without a body. *)
Definition ctx_set_status (code : Z) : M unit :=
  if is_http_status code then
    modify_ctx (fun c =>
      let c' := set_status code c in
      if has_body c' && empty_status code then clear_body c' else c')
  else throw (AssertionError "invalid status code").

(** [key in v]: a [TypeError] when [v] is not an object. *)
Definition js_in (key : jsstring) (v : value) : M bool :=
  match v with
  | VObj o => ret (has_key key o)
  | _ => throw (TypeError "Cannot use 'in' operator to search for a key in a primitive")
  end.

(** [v == ''] for a [v] that is a string *)
Definition is_empty_string (v : value) : bool :=
  match v with VStr [] => true | _ => false end.

(** One iteration of the loop of [cleanPost]. *)
Definition clean_key (key : jsstring) (body : gmap jsstring value)
  : gmap jsstring value :=
  match get body key with
  | VStr s =>                         (* typeof body[key] == 'string' *)
      (* body[key] = body[key].trim(); *)
      let body1 := <[key := VStr (trim s)]> body in
      (* if (body[key] == '') body[key] = null; *)
      if is_empty_string (get body1 key) then <[key := VNull]> body1
      else body1
  | _ => body
  end.

(** [for (const key in body) { ... }] over the keys [keys] *)
Definition for_in_clean (keys : list jsstring) (body : gmap jsstring value)
  : gmap jsstring value :=
  foldl (fun b key => clean_key key b) body keys.

(** The loop on whatever [body] is; the result is [body] as the loop leaves
    it. An object is updated in place. A non-empty primitive string has its
    indices as keys and each character is a string, but the file is in strict
    mode, where assigning to an index of a primitive string throws. Every
    other primitive has no enumerable key. *)
Definition clean_fields (body : value) : M value :=
  match body with
  | VObj o => ret (VObj (for_in_clean (for_in_keys o) o))
  | VStr (_ :: _) =>
      throw (TypeError "Cannot assign to read only property '0' of string")
  | _ => ret body
  end.

(** [cleanPost]: clean up post data - trim & convert blank fields to null. *)
Definition cleanPost : middleware := fun next =>
  request_body ← gets (fun w => ctx_request_body (w_ctx w));
  match request_body with
  | VUndefined => ret tt
  | _ =>
      in_fields ← js_in (js "fields") request_body;
      multipart ← (if in_fields : bool then js_in (js "files") request_body
                    else ret false);
      match multipart, request_body with
      | true, VObj o =>
          fields ← clean_fields (get o (js "fields"));
          modify_ctx (set_request_body (VObj (<[js "fields" := fields]> o)))
      | _, _ =>
          body ← clean_fields request_body;
          modify_ctx (set_request_body body)
      end
  end ;;
  next.

(** [ctxAddDomain]: add the domain (host without subdomain) into koa ctx. *)
Definition ctxAddDomain : middleware := fun next =>
  modify_ctx (fun c =>
    set_state_domain (replace (ctx_host c) (js "www.") (js "")) c) ;;
  next.

(** [notFound]: end of the line, it takes no [next]. *)
Definition notFound : middleware := fun _ => throw http_error_404.

Section App.

(** [app.env] *)
Variable env : jsstring.

(** The templating engine behind [ctx.render]: the page a view renders to
    in a context. *)
Variable template : jsstring -> view_context -> jsstring.

(** The listeners of the 'error' event of the application (Koa installs
    its own, which prints the error, when the host process has set none),
    as the lines they print on the console for an error and a context. *)
Variable on_error : error -> ctx -> list (list printed).

(** The middleware of the libraries and of routes-www.js. *)
Variables serve handlebars flash lusca routes : middleware.

(** [ctx.app.emit(name, e, ctx)]: the listeners run before [emit] returns. *)
Definition app_emit (name : jsstring) (e : error) : M unit :=
  modify (fun w =>
    World (w_ctx w) (w_now w) (w_access w)
          (w_console w ++ on_error e (w_ctx w)) (w_rendered w)
          (w_emitted w ++ [(name, e)])).

(** [await ctx.render(view, context)]: the rendered page becomes the body. *)
Definition ctx_render (view : jsstring) (context : view_context) : M unit :=
  modify (fun w =>
    World (set_body (template view context) (w_ctx w)) (w_now w) (w_access w)
          (w_console w) (w_rendered w ++ [(view, context)]) (w_emitted w)).

(** The [catch] block of [handleErrors]. *)
Definition handleErrors_catch (e : error) : M unit :=
  e_status ← read_status e;
  ctx_set_status (status_or e_status 500) ;;
  status ← gets (fun w => ctx_status (w_ctx w));
  let internal_server_error :=
    console_error status (err_message e) ;;
    let context500 :=
      if str_eq env (js "production") then [] else [(js "e", BErr e)] in
    ctx_render (js "500-internal-server-error") context500 ;;
    app_emit (js "error") e in
  if status =? 404 then
    let context404 :=
      [(js "msg", if str_eq (err_message e) (js "Not Found") then BNull
                  else BStr (err_message e))] in
    ctx_render (js "404-not-found") context404
  else if status =? 500 then internal_server_error
  else (* default *) internal_server_error.

(** [handleErrors]: handle thrown or uncaught exceptions anywhere down the
    line. *)
Definition handleErrors : middleware := fun next =>
  try_catch next handleErrors_catch.

(** The middleware in the order [app.use] registers them. *)
Inductive layer : Type :=
  | Serve | LogAccess | Handlebars | HandleErrors | CleanPost | Flash
  | Lusca | CtxAddDomain | Routes | NotFound.

Definition stack : list layer :=
  [Serve; LogAccess; Handlebars; HandleErrors; CleanPost; Flash; Lusca;
   CtxAddDomain; Routes; NotFound].

Definition layer_middleware (l : layer) : middleware :=
  match l with
  | Serve => serve
  | LogAccess => logAccess
  | Handlebars => handlebars
  | HandleErrors => handleErrors
  | CleanPost => cleanPost
  | Flash => flash
  | Lusca => lusca
  | CtxAddDomain => ctxAddDomain
  | Routes => routes
  | NotFound => notFound
  end.

(** koa-compose: each middleware runs with the rest of the list as its
    [next]; past the last one, [next] does nothing. *)
Fixpoint compose (mws : list middleware) : M unit :=
  match mws with
  | [] => ret tt
  | mw :: rest => mw (compose rest)
  end.

(** The application: what [module.exports = app] does with a request. *)
Definition app : M unit := compose (layer_middleware <$> stack).

End App.

(** ** What the specification says of the body normalizer *)

(** The value the specification gives a field: a string is trimmed, and is
    null when nothing is left; anything else stays. *)
Definition normalize_value (v : value) : value :=
  match v with
  | VStr s => match trim s with
              | [] => VNull
              | t => VStr t
              end
  | _ => v
  end.

(** [ctx.request.body = b] *)
Definition with_request_body (b : value) (w : world) : world :=
  set_ctx (set_request_body b (w_ctx w)) w.

(** The first and the last code unit of a string. *)
Definition first_unit (s : jsstring) : option code_unit := head s.
Definition last_unit (s : jsstring) : option code_unit := last s.

(** ** Requests used as examples *)

(** A request as Koa hands it to the first middleware: status 404, no body
    yet, with the given host header and parsed request body. *)
Definition request (host : jsstring) (body : value) : world :=
  World (Ctx (js "POST") (js "/contact") host body 404 None None)
        0 [] [] [] [].

(** An uploaded file, as the body parser describes it. *)
Definition a_file : value :=
  VObj {[ js "name" := VStr (js " cv.pdf "); js "size" := VNum 1024 ]}.

(** [{fields: {a: " x ", b: ""}, files: {f: <file>}}] *)
Definition multipart_fields : gmap jsstring value :=
  {[ js "a" := VStr (js " x "); js "b" := VStr (js "") ]}.
Definition multipart_body : gmap jsstring value :=
  {[ js "fields" := VObj multipart_fields;
     js "files" := VObj {[ js "f" := a_file ]} ]}.

(** [{name: "  Bob ", age: 42, note: "   "}] *)
Definition flat_body : gmap jsstring value :=
  {[ js "name" := VStr (js "  Bob "); js "age" := VNum 42;
     js "note" := VStr (js "   ") ]}.

(** A urlencoded form that has fields called [fields] and [files]:
    [{fields: {a: " x "}, files: "1", name: " bob "}] *)
Definition flat_body_with_both_keys : gmap jsstring value :=
  {[ js "fields" := VObj {[ js "a" := VStr (js " x ") ]};
     js "files" := VStr (js "1"); js "name" := VStr (js " bob ") ]}.

(** A urlencoded form whose inputs are called [fields], left blank, [files]
    and [name]: [{fields: "", files: "1", name: " bob "}] *)
Definition form_with_both_keys : gmap jsstring value :=
  {[ js "fields" := VStr (js ""); js "files" := VStr (js "1");
     js "name" := VStr (js " bob ") ]}.

(** [{fields: {a: " x "}, name: " bob "}] *)
Definition flat_body_with_fields_only : gmap jsstring value :=
  {[ js "fields" := VObj {[ js "a" := VStr (js " x ") ]};
     js "name" := VStr (js " bob ") ]}.

(** Errors a route can throw: [ctx.throw(403)], a plain [Error] without a
    status, and [ctx.throw(404, 'No such member')]. *)
Definition forbidden : error := Error (Some 403) (js "Forbidden").
Definition failure : error := Error None (js "connection lost").
Definition no_such_member : error := Error (Some 404) (js "No such member").

(** A templating engine that renders a view to its name followed by the
    names its context binds. *)
Definition page (view : jsstring) (context : view_context) : jsstring :=
  view ++ js "?" ++ concat (context.*1).

(** An error whose status is no HTTP status, and a thrown [null]. *)
Definition out_of_range : error := Error (Some 1000) (js "Out of range").
Definition thrown_null : error := Nullish.

(** Listeners that print the message of the error between two empty lines,
    much as Koa's own listener prints the stack of the error. *)
Definition printing_listener (e : error) (c : ctx) : list (list printed) :=
  [[]; [PStr (err_message e)]; []].

(** A library middleware that has nothing to do for the request. *)
Definition pass_through : middleware := fun next => next.

(** A route handler that takes 35 ms and returns. *)
Definition slow_handler : M unit :=
  modify (fun w =>
    World (set_status 200 (w_ctx w)) (w_now w + 35) (w_access w)
          (w_console w) (w_rendered w) (w_emitted w)).

(** A route handler during which the clock is set back by 40 ms. *)
Definition clock_set_back : M unit :=
  modify (fun w =>
    World (set_status 200 (w_ctx w)) (w_now w - 40) (w_access w)
          (w_console w) (w_rendered w) (w_emitted w)).

(** ** The order of the middleware *)

#[global] Instance layer_eq_dec : EqDecision layer.
Proof. solve_decision. Defined.

(** The layers inside the error boundary. *)
Definition downstream : list layer :=
  [CleanPost; Flash; Lusca; CtxAddDomain; Routes; NotFound].

(** On the state [w] the middleware [mw] calls [next] in the state [w1],
    and does not catch what [next] throws. *)
Definition calls_next (mw : middleware) (w w1 : world) : Prop :=
  ∀ next e w2, next w1 = (Thrown e, w2) → mw next w = (Thrown e, w2).

(** A request in the state [w] goes through the middleware [mws], each
    calling the next one, and leaves the last of them in the state [w']. *)
Fixpoint reaches (mws : list middleware) (w w' : world) : Prop :=
  match mws with
  | [] => w = w'
  | mw :: rest => ∃ w1, calls_next mw w w1 ∧ reaches rest w1 w'
  end.

(** ** What the error boundary leaves behind *)

(** The errors the [catch] block can answer: the [Error] objects whose
    status, or 500 in its place when it is absent or 0, is one that Koa
    accepts. *)
Definition answerable (e : error) : bool :=
  match e with
  | Error status _ => is_http_status (status_or status 500)
  | Nullish => false
  end.

(** The context of the not-found view for the error [e]. *)
Definition context404 (e : error) : view_context :=
  [(js "msg", if decide (err_message e = js "Not Found") then BNull
              else BStr (err_message e))].

(** The context of the internal-error view for the error [e]. *)
Definition context500 (env : jsstring) (e : error) : view_context :=
  if decide (env = js "production") then [] else [(js "e", BErr e)].

(** The state the [catch] block leaves after a 404. *)
Definition after_404 (template : jsstring -> view_context -> jsstring)
  (e : error) (w : world) : world :=
  World (set_body (template (js "404-not-found") (context404 e))
                  (set_status 404 (w_ctx w)))
        (w_now w) (w_access w) (w_console w)
        (w_rendered w ++ [(js "404-not-found", context404 e)])
        (w_emitted w).

(** The context the listeners of 'error' are given after any other error. *)
Definition ctx_500 (env : jsstring)
  (template : jsstring -> view_context -> jsstring) (e : error) (c : ctx)
  : ctx :=
  set_body (template (js "500-internal-server-error") (context500 env e))
           (set_status (status_or (err_status e) 500) c).

(** The state the [catch] block leaves after any other error. *)
Definition after_500 (env : jsstring)
  (template : jsstring -> view_context -> jsstring)
  (on_error : error -> ctx -> list (list printed)) (e : error) (w : world)
  : world :=
  let status := status_or (err_status e) 500 in
  World (ctx_500 env template e (w_ctx w))
        (w_now w) (w_access w)
        (w_console w ++ [[PNum status; PStr (err_message e)]]
                     ++ on_error e (ctx_500 env template e (w_ctx w)))
        (w_rendered w ++ [(js "500-internal-server-error", context500 env e)])
        (w_emitted w ++ [(js "error", e)]).

(** ** The body normalizer on any body *)

(** What [cleanPost] makes of the parsed body [b] before it calls [next]:
    the body it leaves in [ctx.request.body], or the error it throws. *)
Definition normalized_body (b : value) : outcome value :=
  match b with
  | VUndefined => Returned VUndefined
  | VObj o =>
      if has_key (js "fields") o && has_key (js "files") o then
        match get o (js "fields") with
        | VObj fields =>
            Returned (VObj (<[js "fields" := VObj (normalize_value <$> fields)]> o))
        | VStr (_ :: _) =>
            Thrown (TypeError "Cannot assign to read only property '0' of string")
        | _ => Returned (VObj o)
        end
      else Returned (VObj (normalize_value <$> o))
  | _ => Thrown (TypeError "Cannot use 'in' operator to search for a key in a primitive")
  end.

(** A parsed body that is neither absent nor an object: null, a boolean, a
    number or a string, as a JSON or text body can be. *)
Definition is_primitive_body (b : value) : bool :=
  match b with
  | VUndefined | VObj _ => false
  | _ => true
  end.

(** A value over which a [for ... in] loop has nothing to visit. *)
Definition has_no_keys (v : value) : bool :=
  match v with
  | VObj _ | VStr (_ :: _) => false
  | _ => true
  end.

(** The string-valued fields of [o] are trimmed: none is empty, none starts
    or ends with white space. *)
Definition fields_trimmed (o : gmap jsstring value) : Prop :=
  ∀ key s, o !! key = Some (VStr s) →
    s ≠ []
    ∧ (∀ c, first_unit s = Some c → is_white_space c = false)
    ∧ (∀ c, last_unit s = Some c → is_white_space c = false).

(** A route handler that stores a page and then throws. *)
Definition failing_handler (e : error) : M unit :=
  modify_ctx (set_body (js "partial page")) ;; throw e.

(** * Properties *)

(** ** Strings *)

Section Strings.

Implicit Types s p : jsstring.

Lemma trimStart_split s :
  ∃ pre, s = pre ++ trimStart s ∧ forallb is_white_space pre = true.
Proof.
  induction s as [|c s [pre [Hs Hpre]]]; [by exists []|].
  simpl. destruct (is_white_space c) eqn:Hc.
  - exists (c :: pre). simpl. rewrite Hc, Hpre. by rewrite <- Hs.
  - by exists [].
Qed.

Lemma trimStart_first s c :
  first_unit (trimStart s) = Some c → is_white_space c = false.
Proof.
  induction s as [|d s IH]; [done|]. simpl.
  destruct (is_white_space d) eqn:Hd; [done|].
  intros [= <-]. done.
Qed.

Lemma trimEnd_split s :
  ∃ post, s = trimEnd s ++ post ∧ forallb is_white_space post = true.
Proof.
  destruct (trimStart_split (reverse s)) as [pre [Hs Hpre]].
  exists (reverse pre). split.
  - unfold trimEnd. rewrite <- reverse_app, <- Hs. by rewrite reverse_involutive.
  - rewrite forallb_forall in Hpre. apply forallb_forall.
    intros c Hc. apply Hpre. apply list_elem_of_In.
    apply list_elem_of_In in Hc. by apply elem_of_reverse.
Qed.

Lemma last_reverse_head s : last_unit (reverse s) = first_unit s.
Proof.
  unfold last_unit, first_unit. destruct s as [|c s]; [done|].
  by rewrite reverse_cons, last_snoc.
Qed.

Lemma trimEnd_last s c :
  last_unit (trimEnd s) = Some c → is_white_space c = false.
Proof.
  unfold trimEnd. rewrite last_reverse_head. apply trimStart_first.
Qed.

(** What is left of a string without leading white space has none either. *)
Lemma trimEnd_first s c :
  (∀ d, first_unit s = Some d → is_white_space d = false) →
  first_unit (trimEnd s) = Some c → is_white_space c = false.
Proof.
  intros Hs Hc.
  destruct (trimEnd_split s) as [post [Hsplit _]].
  destruct (trimEnd s) as [|d t] eqn:Ht; [done|].
  injection Hc as ->. apply Hs. by rewrite Hsplit.
Qed.

Lemma trim_split s :
  ∃ pre post, s = pre ++ trim s ++ post
    ∧ forallb is_white_space pre = true
    ∧ forallb is_white_space post = true.
Proof.
  destruct (trimStart_split s) as [pre [Hs Hpre]].
  destruct (trimEnd_split (trimStart s)) as [post [Ht Hpost]].
  exists pre, post. unfold trim. by rewrite <- Ht.
Qed.

Lemma trim_first s c :
  first_unit (trim s) = Some c → is_white_space c = false.
Proof. apply trimEnd_first. intros d. apply trimStart_first. Qed.

Lemma trim_last s c :
  last_unit (trim s) = Some c → is_white_space c = false.
Proof. apply trimEnd_last. Qed.

End Strings.

(** ** The body normalizer *)

Section CleanPost.

Implicit Types (o body : gmap jsstring value) (key : jsstring).

Lemma get_insert key v body : get (<[key := v]> body) key = v.
Proof. unfold get. by rewrite lookup_insert_eq. Qed.

(** One iteration normalizes the field [key] and no other. *)
Lemma clean_key_insert key body v :
  body !! key = Some v → clean_key key body = <[key := normalize_value v]> body.
Proof.
  intros Hv. unfold clean_key, get. rewrite Hv. simpl.
  destruct v as [| | | |s|]; simpl; try (by rewrite insert_id).
  fold (get (<[key:=VStr (trim s)]> body) key). rewrite get_insert.
  destruct (trim s); simpl; [|done].
  by rewrite insert_insert_eq.
Qed.

Lemma clean_key_absent key body :
  body !! key = None → clean_key key body = body.
Proof. intros Hv. unfold clean_key, get. by rewrite Hv. Qed.

Lemma lookup_clean_key key body j :
  clean_key key body !! j
  = if decide (key = j) then normalize_value <$> body !! j else body !! j.
Proof.
  destruct (body !! key) as [v|] eqn:Hv.
  - rewrite (clean_key_insert _ _ _ Hv), lookup_insert.
    case_decide; subst; by rewrite ?Hv.
  - rewrite (clean_key_absent _ _ Hv). case_decide; subst; by rewrite ?Hv.
Qed.

(** The loop normalizes the fields it visits, whatever the order. *)
Lemma lookup_for_in_clean keys body j :
  NoDup keys →
  for_in_clean keys body !! j
  = if decide (j ∈ keys) then normalize_value <$> body !! j else body !! j.
Proof.
  unfold for_in_clean. revert body.
  induction keys as [|key keys IH]; intros body Hnd; simpl.
  - done.
  - apply NoDup_cons in Hnd as [Hkey Hnd].
    rewrite (IH _ Hnd), lookup_clean_key.
    destruct (decide (key = j)) as [->|Hne].
    + rewrite decide_False by done. rewrite decide_True by left. done.
    + destruct (decide (j ∈ keys)) as [Hin|Hin].
      * rewrite decide_True by (by right). done.
      * rewrite decide_False; [done|].
        intros [->|?]%elem_of_cons; done.
Qed.

(** A loop over any enumeration of the own keys maps [normalize_value] over
    the object. *)
Lemma for_in_clean_fmap keys o :
  NoDup keys → (∀ j, j ∈ keys ↔ is_Some (o !! j)) →
  for_in_clean keys o = normalize_value <$> o.
Proof.
  intros Hnd Hkeys. apply map_eq. intros j.
  rewrite (lookup_for_in_clean _ _ _ Hnd), lookup_fmap.
  case_decide as Hj; [done|].
  destruct (o !! j) eqn:Hoj; [|done].
  exfalso. apply Hj, Hkeys. by rewrite Hoj.
Qed.

Lemma for_in_keys_spec o :
  NoDup (for_in_keys o) ∧ ∀ j, j ∈ for_in_keys o ↔ is_Some (o !! j).
Proof.
  split; [apply NoDup_fst_map_to_list|].
  intros j. unfold for_in_keys. rewrite list_elem_of_fmap. split.
  - intros [[k v] [-> Hkv]]. apply elem_of_map_to_list in Hkv. by exists v.
  - intros [v Hv]. exists (j, v). split; [done|].
    by apply elem_of_map_to_list.
Qed.

Lemma clean_fields_object o w :
  clean_fields (VObj o) w = (Returned (VObj (normalize_value <$> o)), w).
Proof.
  unfold clean_fields, mret, M_ret, ret.
  destruct (for_in_keys_spec o) as [Hnd Hkeys].
  by rewrite (for_in_clean_fmap _ _ Hnd Hkeys).
Qed.

Lemma has_key_true key o : has_key key o = true ↔ is_Some (o !! key).
Proof. unfold has_key. apply bool_decide_eq_true. Qed.

Lemma has_key_false key o : has_key key o = false ↔ o !! key = None.
Proof.
  unfold has_key. rewrite bool_decide_eq_false. symmetry. apply eq_None_not_Some.
Qed.

(** No body was parsed: nothing is done. *)
Lemma cleanPost_undefined next w :
  ctx_request_body (w_ctx w) = VUndefined → cleanPost next w = next w.
Proof.
  intros Hb. unfold cleanPost, mbind, M_bind, bind, gets.
  rewrite Hb. done.
Qed.

(** An object without one of the two keys: all its fields are normalized. *)
Lemma cleanPost_flat next w o :
  ctx_request_body (w_ctx w) = VObj o →
  o !! js "fields" = None ∨ o !! js "files" = None →
  cleanPost next w = next (with_request_body (VObj (normalize_value <$> o)) w).
Proof.
  intros Hb Hkeys.
  unfold cleanPost, mbind, M_bind, bind, gets. rewrite Hb.
  unfold js_in, ret.
  destruct (has_key (js "fields") o) eqn:Hfields.
  - destruct Hkeys as [Hk|Hk].
    { apply has_key_true in Hfields. rewrite Hk in Hfields.
      by destruct Hfields. }
    apply has_key_false in Hk. rewrite Hk.
    by rewrite clean_fields_object.
  - by rewrite clean_fields_object.
Qed.

(** An object with the two keys: the fields of [body.fields] are normalized,
    when that is an object. *)
Lemma cleanPost_multipart next w o fields :
  ctx_request_body (w_ctx w) = VObj o →
  o !! js "fields" = Some (VObj fields) → is_Some (o !! js "files") →
  cleanPost next w
  = next (with_request_body
            (VObj (<[js "fields" := VObj (normalize_value <$> fields)]> o)) w).
Proof.
  intros Hb Hfields Hfiles.
  unfold cleanPost, mbind, M_bind, bind, gets. rewrite Hb.
  unfold js_in, ret.
  assert (has_key (js "fields") o = true) as ->.
  { apply has_key_true. by rewrite Hfields. }
  apply has_key_true in Hfiles. rewrite Hfiles.
  unfold get at 1. rewrite Hfields. simpl.
  destruct (for_in_keys_spec fields) as [Hnd Hkeys].
  by rewrite (for_in_clean_fmap _ _ Hnd Hkeys).
Qed.

End CleanPost.

(** ** The contract of the body normalizer *)

(** C1, as the specification states it, is refuted: not every flat field
    map has its string-valued fields normalized. The flat map
    [{fields: "", files: "1", name: " bob "}] has both keys, so that its
    [fields], the empty string, is what the loop goes through: the body is
    left as it is, [name] with its white space and [fields] blank. *)
Lemma cleanPost_skips_flat_map_with_both_keys :
  ¬ (∀ next w o,
       ctx_request_body (w_ctx w) = VObj o →
       (∀ key v, o !! key = Some v → is_string v = true) →
       cleanPost next w
       = next (with_request_body (VObj (normalize_value <$> o)) w)).
Proof.
  intros Hclaim.
  assert (∀ key v, form_with_both_keys !! key = Some v → is_string v = true)
    as Hstrings.
  { apply (map_Forall_insert_2 (λ _ v, is_string v = true)); [done|].
    apply (map_Forall_insert_2 (λ _ v, is_string v = true)); [done|].
    by apply (map_Forall_singleton (λ _ v, is_string v = true)). }
  specialize (Hclaim (ret tt)
                (request (js "example.com") (VObj form_with_both_keys))
                form_with_both_keys eq_refl Hstrings).
  apply (f_equal (λ r, match ctx_request_body (w_ctx r.2) with
                       | VObj o => o !! js "name"
                       | _ => None
                       end)) in Hclaim.
  vm_compute in Hclaim. discriminate Hclaim.
Qed.

(** C1, amended. The body normalizer is a no-op when no body was parsed; for
    a flat field map that does not have both a [fields] and a [files] key it
    trims every string-valued field and replaces a field that is empty after
    trimming with null; for a multipart shape with [fields] and [files]
    sub-maps it does so on the entries of [fields] and leaves the file
    entries as they are; non-string fields are unchanged. Trimming removes
    white space, and nothing else, from both ends. *)
Theorem cleanPost_normalizes_body :
  (∀ next w,
     ctx_request_body (w_ctx w) = VUndefined → cleanPost next w = next w)
  ∧ (∀ next w o,
       ctx_request_body (w_ctx w) = VObj o →
       o !! js "fields" = None ∨ o !! js "files" = None →
       cleanPost next w
       = next (with_request_body (VObj (normalize_value <$> o)) w))
  ∧ (∀ next w o fields files,
       ctx_request_body (w_ctx w) = VObj o →
       o !! js "fields" = Some (VObj fields) →
       o !! js "files" = Some (VObj files) →
       ∃ o', cleanPost next w = next (with_request_body (VObj o') w)
         ∧ o' !! js "fields" = Some (VObj (normalize_value <$> fields))
         ∧ o' !! js "files" = Some (VObj files))
  ∧ (∀ s, normalize_value (VStr s)
          = if decide (trim s = []) then VNull else VStr (trim s))
  ∧ (∀ v, is_string v = false → normalize_value v = v)
  ∧ (∀ s, ∃ pre post,
       s = pre ++ trim s ++ post
       ∧ forallb is_white_space pre = true
       ∧ forallb is_white_space post = true
       ∧ (∀ c, first_unit (trim s) = Some c → is_white_space c = false)
       ∧ (∀ c, last_unit (trim s) = Some c → is_white_space c = false)).
Proof.
  split; [exact cleanPost_undefined|].
  split; [exact cleanPost_flat|].
  split.
  { intros next w o fields files Hb Hfields Hfiles.
    eexists. split.
    - apply (cleanPost_multipart next w o fields Hb Hfields).
      by rewrite Hfiles.
    - split; [by rewrite lookup_insert_eq|].
      by rewrite lookup_insert_ne. }
  split.
  { intros s. simpl. by destruct (trim s). }
  split.
  { by intros []. }
  intros s. destruct (trim_split s) as (pre & post & Hs & Hpre & Hpost).
  exists pre, post. repeat split; try done.
  - apply trim_first.
  - apply trim_last.
Qed.

(** The theorem at the bodies of the examples: no body, the flat body
    [{name: "  Bob ", age: 42, note: "   "}], the multipart body
    [{fields: {a: " x ", b: ""}, files: {f: <file>}}], and the string
    [" x "]. *)
Lemma cleanPost_normalizes_body_witness :
  cleanPost (ret tt) (request (js "example.com") VUndefined)
  = ret tt (request (js "example.com") VUndefined)
  ∧ cleanPost (ret tt) (request (js "example.com") (VObj flat_body))
    = ret tt (request (js "example.com")
                      (VObj (normalize_value <$> flat_body)))
  ∧ (∃ o', cleanPost (ret tt) (request (js "example.com") (VObj multipart_body))
           = ret tt (request (js "example.com") (VObj o'))
         ∧ o' !! js "fields" = Some (VObj (normalize_value <$> multipart_fields))
         ∧ o' !! js "files" = Some (VObj {[ js "f" := a_file ]}))
  ∧ normalize_value (VNum 42) = VNum 42
  ∧ is_white_space 120%N = false.
Proof.
  destruct cleanPost_normalizes_body
    as (Hnone & Hflat & Hmulti & _ & Hother & Htrim).
  split; [by apply Hnone|].
  split.
  { refine (Hflat (ret tt) (request (js "example.com") (VObj flat_body))
                  flat_body eq_refl _).
    by left. }
  split.
  { exact (Hmulti (ret tt) (request (js "example.com") (VObj multipart_body))
                  multipart_body multipart_fields {[ js "f" := a_file ]}
                  eq_refl eq_refl eq_refl). }
  split; [by apply Hother|].
  destruct (Htrim (js " x ")) as (_ & _ & _ & _ & _ & Hfirst & _).
  by apply Hfirst.
Defined.

(** C10. The body is treated as multipart exactly when it has both a
    [fields] and a [files] key: then only the entries of its [fields]
    sub-object are normalized and every other top-level field is left as it
    is; a body without one of the two keys is normalized as a flat map. *)
Theorem cleanPost_multipart_iff_both_keys next w o :
  ctx_request_body (w_ctx w) = VObj o →
  (∀ fields,
     o !! js "fields" = Some (VObj fields) → is_Some (o !! js "files") →
     ∃ o', cleanPost next w = next (with_request_body (VObj o') w)
       ∧ o' !! js "fields" = Some (VObj (normalize_value <$> fields))
       ∧ ∀ key, key ≠ js "fields" → o' !! key = o !! key)
  ∧ (o !! js "fields" = None ∨ o !! js "files" = None →
     cleanPost next w
     = next (with_request_body (VObj (normalize_value <$> o)) w)).
Proof.
  intros Hb. split.
  - intros fields Hfields Hfiles. eexists. split.
    + exact (cleanPost_multipart next w o fields Hb Hfields Hfiles).
    + split; [by rewrite lookup_insert_eq|].
      intros key Hkey. by rewrite lookup_insert_ne.
  - exact (cleanPost_flat next w o Hb).
Qed.

(** The theorem at a flat body that has both keys, where the field [name]
    keeps its white space, and at one that has [fields] only. *)
Lemma cleanPost_multipart_iff_both_keys_witness :
  (∃ o', cleanPost (ret tt)
           (request (js "example.com") (VObj flat_body_with_both_keys))
         = ret tt (request (js "example.com") (VObj o'))
       ∧ o' !! js "fields"
         = Some (VObj (normalize_value <$> {[ js "a" := VStr (js " x ") ]}))
       ∧ o' !! js "name" = Some (VStr (js " bob ")))
  ∧ cleanPost (ret tt)
      (request (js "example.com") (VObj flat_body_with_fields_only))
    = ret tt (request (js "example.com")
                (VObj (normalize_value <$> flat_body_with_fields_only))).
Proof.
  split.
  - destruct (cleanPost_multipart_iff_both_keys (ret tt)
                (request (js "example.com") (VObj flat_body_with_both_keys))
                flat_body_with_both_keys eq_refl) as [Hboth _].
    destruct (Hboth {[ js "a" := VStr (js " x ") ]}) as (o' & Hrun & Hf & Hrest).
    + reflexivity.
    + by eexists.
    + exists o'. split; [exact Hrun|]. split; [exact Hf|].
      by rewrite Hrest.
  - destruct (cleanPost_multipart_iff_both_keys (ret tt)
                (request (js "example.com") (VObj flat_body_with_fields_only))
                flat_body_with_fields_only eq_refl) as [_ Hflat].
    apply Hflat. by right.
Defined.

(** ** The error boundary *)

Section Boundary.

Variable env : jsstring.
Variable template : jsstring -> view_context -> jsstring.
Variable on_error : error -> ctx -> list (list printed).

Lemma status_or_404 status :
  status_or status 500 = 404 ↔ status = Some 404.
Proof.
  destruct status as [n|]; simpl; [|done].
  destruct (Z.eqb_spec n 0) as [->|]; [done|].
  split; [by intros ->|by intros [= ->]].
Qed.

(** The setter rejects everything else, and changes nothing. *)
Lemma ctx_set_status_rejected code w :
  is_http_status code = false →
  ctx_set_status code w = (Thrown (AssertionError "invalid status code"), w).
Proof. intros Hcode. unfold ctx_set_status. by rewrite Hcode. Qed.

Lemma handleErrors_catch_404 e w :
  status_or (err_status e) 500 = 404 →
  handleErrors_catch env template on_error e w
  = (Returned tt, after_404 template e w).
Proof.
  intros Hst. destruct e as [status message|]; [|done]. simpl in Hst.
  unfold handleErrors_catch, after_404, context404, str_eq. simpl.
  destruct (decide (message = js "Not Found")) as [Heq|Hne];
    [rewrite (bool_decide_eq_true_2 _ Heq)
    |rewrite (bool_decide_eq_false_2 _ Hne)];
    unfold read_status, ctx_set_status, mbind, M_bind, mret, M_ret, ret, bind,
      modify_ctx, gets, ctx_render, modify;
    rewrite Hst; simpl;
    by destruct (has_body (set_status 404 (w_ctx w))).
Qed.

Lemma handleErrors_catch_500 e w :
  status_or (err_status e) 500 ≠ 404 →
  answerable e = true →
  handleErrors_catch env template on_error e w
  = (Returned tt, after_500 env template on_error e w).
Proof.
  intros Hst Hok. destruct e as [status message|]; [|done].
  simpl in Hst, Hok.
  unfold handleErrors_catch, after_500, ctx_500, context500, str_eq. simpl.
  destruct (decide (env = js "production")) as [Heq|Hne];
    [rewrite (bool_decide_eq_true_2 _ Heq)
    |rewrite (bool_decide_eq_false_2 _ Hne)];
    unfold read_status, ctx_set_status, mbind, M_bind, mret, M_ret, ret, bind,
      modify_ctx, gets, ctx_render, console_error, app_emit, modify;
    rewrite Hok; simpl;
    destruct (has_body (set_status (status_or status 500) (w_ctx w))
              && empty_status (status_or status 500)); simpl;
    (destruct (Z.eqb_spec (status_or status 500) 404) as [|_]; [done|]);
    destruct (status_or status 500 =? 500); simpl;
    by rewrite <- app_assoc.
Qed.

(** The [catch] block answers the errors it can answer. *)
Lemma handleErrors_catch_returns e w :
  answerable e = true →
  handleErrors_catch env template on_error e w
  = (Returned tt,
     if decide (status_or (err_status e) 500 = 404) then after_404 template e w
     else after_500 env template on_error e w).
Proof.
  intros Hok. case_decide.
  - by apply handleErrors_catch_404.
  - by apply handleErrors_catch_500.
Qed.

(** Any other error makes the [catch] block throw, before it has changed
    anything. *)
Lemma handleErrors_catch_throws e w :
  answerable e = false →
  ∃ e', handleErrors_catch env template on_error e w = (Thrown e', w)
      ∧ err_status e' = None.
Proof.
  intros Hno. destruct e as [status message|]; simpl in Hno.
  - unfold handleErrors_catch, read_status, ctx_set_status, mbind, M_bind,
      mret, M_ret, ret, bind.
    rewrite Hno. by eexists.
  - by eexists.
Qed.


Lemma handleErrors_thrown next w e w1 :
  next w = (Thrown e, w1) →
  handleErrors env template on_error next w
  = handleErrors_catch env template on_error e w1.
Proof.
  intros Hnext. unfold handleErrors, try_catch. by rewrite Hnext.
Qed.

(** The boundary returns when what the middleware downstream throw is an
    error it can answer. *)
Lemma handleErrors_returns next w :
  (∀ e w1, next w = (Thrown e, w1) → answerable e = true) →
  ∃ w', handleErrors env template on_error next w = (Returned tt, w').
Proof.
  intros Hok. unfold handleErrors, try_catch.
  destruct (next w) as [[[]|e] w1]; [by eexists|].
  rewrite (handleErrors_catch_returns _ _ (Hok e w1 eq_refl)). by eexists.
Qed.

End Boundary.

(** ** The contract of the error boundary *)




(** C3. An error whose status is 404 is answered with the not-found view,
    whose message is null when the message of the error is the generic
    'Not Found' and is the message of the error otherwise. *)
Theorem handleErrors_renders_not_found env template on_error next w e w1 :
  next w = (Thrown e, w1) →
  err_status e = Some 404 →
  ∃ w', handleErrors env template on_error next w = (Returned tt, w')
    ∧ w_rendered w'
      = w_rendered w1
        ++ [(js "404-not-found",
             [(js "msg", if decide (err_message e = js "Not Found")
                         then BNull else BStr (err_message e))])]
    ∧ ctx_body (w_ctx w')
      = Some (template (js "404-not-found")
                [(js "msg", if decide (err_message e = js "Not Found")
                            then BNull else BStr (err_message e))])
    ∧ ctx_status (w_ctx w') = 404
    ∧ w_emitted w' = w_emitted w1.
Proof.
  intros Hnext Hst. apply status_or_404 in Hst.
  rewrite (handleErrors_thrown _ _ _ _ _ _ _ Hnext).
  rewrite (handleErrors_catch_404 _ _ _ _ _ Hst).
  by eexists.
Qed.

(** The theorem at [ctx.throw(404)] and at [ctx.throw(404, 'No such
    member')]. *)
Lemma handleErrors_renders_not_found_witness :
  (∃ w', handleErrors (js "production") page printing_listener (throw http_error_404)
           (request (js "example.com") VUndefined) = (Returned tt, w')
       ∧ w_rendered w' = [(js "404-not-found", [(js "msg", BNull)])])
  ∧ (∃ w', handleErrors (js "production") page printing_listener (throw no_such_member)
             (request (js "example.com") VUndefined) = (Returned tt, w')
         ∧ w_rendered w'
           = [(js "404-not-found",
               [(js "msg", BStr (js "No such member"))])]).
Proof.
  split.
  - destruct (handleErrors_renders_not_found (js "production") page printing_listener
                (throw http_error_404) (request (js "example.com") VUndefined)
                http_error_404 _ eq_refl eq_refl)
      as (w' & Hrun & Hview & _).
    by exists w'.
  - destruct (handleErrors_renders_not_found (js "production") page printing_listener
                (throw no_such_member) (request (js "example.com") VUndefined)
                no_such_member _ eq_refl eq_refl)
      as (w' & Hrun & Hview & _).
    by exists w'.
Defined.




(** C5, as the specification states it, is refuted: the status of the
    response is not always 404 or 500. A handler that throws with status 403
    ([ctx.throw(403)]) leaves the response with status 403. *)
Lemma handleErrors_status_403_not_normalized :
  ¬ (∀ env template on_error next w e w1 w',
       next w = (Thrown e, w1) →
       handleErrors env template on_error next w = (Returned tt, w') →
       ctx_status (w_ctx w') = 404 ∨ ctx_status (w_ctx w') = 500).
Proof.
  intros Hclaim.
  destruct (Hclaim (js "production") page printing_listener (throw forbidden)
              (request (js "example.com") VUndefined) forbidden _ _
              eq_refl eq_refl) as [H|H];
    vm_compute in H; discriminate H.
Qed.

(** C5, amended. For an error whose status Koa accepts, the status of the
    response is the status of the error when it has one in 100..999, and 500
    when it has none or has 0; the error is answered in one of two ways: with
    the not-found view when that status is 404, and with the internal-error
    view for every other status. *)
Theorem handleErrors_two_classes env template on_error next w e w1 :
  next w = (Thrown e, w1) →
  answerable e = true →
  ∃ w' view context,
    handleErrors env template on_error next w = (Returned tt, w')
    ∧ w_rendered w' = w_rendered w1 ++ [(view, context)]
    ∧ ctx_status (w_ctx w')
      = match err_status e with
        | Some status => if decide (status = 0) then 500 else status
        | None => 500
        end
    ∧ 100 ≤ ctx_status (w_ctx w') ≤ 999
    ∧ (ctx_status (w_ctx w') = 404 ∧ view = js "404-not-found"
       ∨ ctx_status (w_ctx w') ≠ 404
         ∧ view = js "500-internal-server-error").
Proof.
  intros Hnext Hok.
  rewrite (handleErrors_thrown _ _ _ _ _ _ _ Hnext).
  rewrite (handleErrors_catch_returns _ _ _ _ _ Hok).
  assert (status_or (err_status e) 500
          = match err_status e with
            | Some status => if decide (status = 0) then 500 else status
            | None => 500
            end) as Hst.
  { destruct (err_status e) as [n|]; simpl; [|done].
    destruct (Z.eqb_spec n 0); by case_decide. }
  assert (100 ≤ status_or (err_status e) 500 ≤ 999) as Hrange.
  { destruct e as [status message|]; [|done]. simpl in *.
    unfold is_http_status in Hok. lia. }
  rewrite <- Hst.
  case_decide as H404; eexists _, _, _; (split; [done|]);
    (split; [done|]); simpl; (split; [done|]); (split; [done|]).
  - by left.
  - by right.
Qed.

(** The amended statement at [ctx.throw(403)]. *)
Lemma handleErrors_two_classes_witness :
  ∃ w' context,
    handleErrors (js "production") page printing_listener (throw forbidden)
      (request (js "example.com") VUndefined) = (Returned tt, w')
    ∧ w_rendered w' = [(js "500-internal-server-error", context)]
    ∧ ctx_status (w_ctx w') = 403.
Proof.
  destruct (handleErrors_two_classes (js "production") page printing_listener
              (throw forbidden) (request (js "example.com") VUndefined)
              forbidden _ eq_refl eq_refl)
    as (w' & view & context & Hrun & Hview & Hstatus & _ & [[H404 _]|[_ ->]]).
  - exfalso. rewrite Hstatus in H404. discriminate H404.
  - by exists w', context.
Defined.

(** ** The pipeline *)

Section Pipeline.

Variable env : jsstring.
Variable template : jsstring -> view_context -> jsstring.
Variable on_error : error -> ctx -> list (list printed).
Variables serve handlebars flash lusca routes : middleware.

(** The application is the four outer layers around the boundary's
    downstream. *)
Lemma app_layers :
  app env template on_error serve handlebars flash lusca routes
  = serve (logAccess (handlebars (handleErrors env template on_error
      (compose (layer_middleware env template on_error serve handlebars flash lusca
                  routes <$> downstream))))).
Proof. reflexivity. Qed.

(** What the last middleware throws comes out of the chain, when every
    middleware before it calls the next one. *)
Lemma compose_reaches mws last w w' e w2 :
  reaches mws w w' →
  (∀ next, last next w' = (Thrown e, w2)) →
  compose (mws ++ [last]) w = (Thrown e, w2).
Proof.
  revert w. induction mws as [|mw mws IH]; intros w; simpl.
  - intros -> Hlast. apply Hlast.
  - intros (w1 & Hcall & Hrest) Hlast. apply Hcall. by apply IH.
Qed.

Lemma cleanPost_calls_next w :
  ctx_request_body (w_ctx w) = VUndefined → calls_next cleanPost w w.
Proof.
  intros Hb next e w2 Hnext. by rewrite (cleanPost_undefined _ _ Hb).
Qed.

Lemma ctxAddDomain_run next w :
  ctxAddDomain next w
  = next (set_ctx (set_state_domain
                     (replace (ctx_host (w_ctx w)) (js "www.") (js ""))
                     (w_ctx w)) w).
Proof. reflexivity. Qed.

Lemma pass_through_calls_next w : calls_next pass_through w w.
Proof. by intros next e w2 Hnext. Qed.

End Pipeline.

(** C7. The fallback always throws the not-found error, of status 404. For
    a request that goes through the layers downstream of the boundary as far
    as the fallback, the boundary answers with status 404 and the not-found
    view, rendered without a message. *)
Theorem notFound_renders_404
  env template on_error serve handlebars flash lusca routes w w' :
  reaches [cleanPost; flash; lusca; ctxAddDomain; routes] w w' →
  (∀ next, notFound next w' = (Thrown http_error_404, w'))
  ∧ err_status http_error_404 = Some 404
  ∧ ∃ w'',
      handleErrors env template on_error
        (compose (layer_middleware env template on_error serve handlebars flash lusca
                    routes <$> downstream)) w
      = (Returned tt, w'')
      ∧ ctx_status (w_ctx w'') = 404
      ∧ w_rendered w'' = w_rendered w' ++ [(js "404-not-found", [(js "msg", BNull)])]
      ∧ ctx_body (w_ctx w'')
        = Some (template (js "404-not-found") [(js "msg", BNull)]).
Proof.
  intros Hreach. split; [done|]. split; [done|].
  assert (compose (layer_middleware env template on_error serve handlebars flash lusca
                     routes <$> downstream) w
          = (Thrown http_error_404, w')) as Hthrown.
  { apply (compose_reaches
             [cleanPost; flash; lusca; ctxAddDomain; routes] notFound
             w w' _ _ Hreach).
    done. }
  rewrite (handleErrors_thrown _ _ _ _ _ _ _ Hthrown).
  rewrite (handleErrors_catch_404 env template on_error http_error_404 w'
             eq_refl).
  by eexists.
Qed.

(** The theorem at a request for which the library middleware and the router
    have nothing to do. *)
Lemma notFound_renders_404_witness :
  ∃ w'',
    handleErrors (js "production") page printing_listener
      (compose (layer_middleware (js "production") page printing_listener
                  pass_through
                  pass_through pass_through pass_through pass_through
                <$> downstream))
      (request (js "www.example.com") VUndefined)
    = (Returned tt, w'')
    ∧ ctx_status (w_ctx w'') = 404
    ∧ w_rendered w'' = [(js "404-not-found", [(js "msg", BNull)])].
Proof.
  destruct (notFound_renders_404 (js "production") page printing_listener pass_through
              pass_through pass_through pass_through pass_through
              (request (js "www.example.com") VUndefined)
              (set_ctx (set_state_domain (js "example.com")
                          (w_ctx (request (js "www.example.com") VUndefined)))
                       (request (js "www.example.com") VUndefined)))
    as (_ & _ & w'' & Hrun & Hstatus & Hview & _).
  - exists (request (js "www.example.com") VUndefined).
    split; [by apply cleanPost_calls_next|].
    eexists. split; [apply pass_through_calls_next|].
    eexists. split; [apply pass_through_calls_next|].
    eexists. split.
    { intros next e w2 Hnext. rewrite ctxAddDomain_run. exact Hnext. }
    eexists. split; [apply pass_through_calls_next|]. reflexivity.
  - exists w''. split; [exact Hrun|]. split; [exact Hstatus|exact Hview].
Defined.

(** ** The access logger *)

(** When the middleware downstream throw, the logger does not reach the
    sink: the exception goes up. *)
Lemma logAccess_thrown next w e w1 :
  next w = (Thrown e, w1) → logAccess next w = (Thrown e, w1).
Proof.
  intros Hnext. unfold logAccess, mbind, M_bind, bind, Date_now, gets.
  by rewrite Hnext.
Qed.

Lemma logAccess_returned next w w1 :
  next w = (Returned tt, w1) →
  logAccess next w = Log_access (w_now w1 - w_now w) w1.
Proof.
  intros Hnext. unfold logAccess, mbind, M_bind, bind, Date_now, gets.
  by rewrite Hnext.
Qed.

(** C8, as the specification states it, is refuted twice. The log sink is
    not called for every request: when the handler throws, the logger lets
    the error through and the log stays as it was. And the duration is not
    always non-negative: it is the difference of two readings of the clock,
    and is -40 when the clock has been set back by 40 ms in between. *)
Lemma logAccess_skipped_or_negative :
  ¬ (∀ next w,
       ∃ record,
         w_access (logAccess next w).2 = w_access (next w).2 ++ [record])
  ∧ ¬ (∀ next w record,
         w_access (logAccess next w).2 = w_access (next w).2 ++ [record] →
         0 ≤ acc_duration record).
Proof.
  split.
  - intros Hclaim.
    destruct (Hclaim (failing_handler failure)
                (request (js "example.com") VUndefined)) as [record Hlog].
    vm_compute in Hlog. discriminate Hlog.
  - intros Hclaim.
    specialize (Hclaim clock_set_back (request (js "example.com") VUndefined)
                  (Access (js "POST") (js "/contact") 200 (-40)) eq_refl).
    simpl in Hclaim. lia.
Qed.

(** C8, amended. When the middleware downstream have completed without
    throwing, the logger calls the log sink once, after them: the log they
    leave gets one more record, with the status of the response as they
    leave it and with the difference of the time read after them and the
    time read before them as the duration, which is non-negative exactly
    when the clock reads no earlier after them than before them. *)
Theorem logAccess_logs_once next w w1 :
  next w = (Returned tt, w1) →
  ∃ w' duration,
    logAccess next w = (Returned tt, w')
    ∧ w_access w'
      = w_access w1
        ++ [Access (ctx_method (w_ctx w1)) (ctx_path (w_ctx w1))
                   (ctx_status (w_ctx w1)) duration]
    ∧ duration = w_now w1 - w_now w
    ∧ (0 ≤ duration ↔ w_now w ≤ w_now w1)
    ∧ w_ctx w' = w_ctx w1.
Proof.
  intros Hnext. rewrite (logAccess_returned _ _ _ Hnext).
  eexists _, _. repeat split; lia.
Qed.

(** The theorem at a handler that takes 35 ms. *)
Lemma logAccess_logs_once_witness :
  ∃ w', logAccess slow_handler (request (js "example.com") VUndefined)
        = (Returned tt, w')
      ∧ w_access w' = [Access (js "POST") (js "/contact") 200 35].
Proof.
  destruct (logAccess_logs_once slow_handler
              (request (js "example.com") VUndefined)
              (slow_handler (request (js "example.com") VUndefined)).2
              eq_refl)
    as (w' & duration & Hrun & Hlog & -> & _).
  by exists w'.
Defined.

(** Inside the pipeline the logger has the error boundary downstream: with
    the boundary as its [next], and errors that the boundary can answer,
    the logger calls the sink once. *)
Lemma logAccess_around_boundary env template on_error next w :
  (∀ e w1, next w = (Thrown e, w1) → answerable e = true) →
  ∃ w1 w',
    handleErrors env template on_error next w = (Returned tt, w1)
    ∧ logAccess (handleErrors env template on_error next) w = (Returned tt, w')
    ∧ length (w_access w') = S (length (w_access w1)).
Proof.
  intros Hok.
  destruct (handleErrors_returns env template on_error next w Hok)
    as (w1 & Hrun).
  exists w1. rewrite (logAccess_returned _ _ _ Hrun).
  unfold Log_access, modify. eexists. split; [done|]. split; [done|].
  cbn [w_access]. rewrite length_app. simpl. lia.
Qed.

(** ** The cache lifetime of static files *)

(** C9. The cache lifetime handed to the static file server is one day,
    86,400,000 ms, when [app.env] is 'production', and one second, 1,000 ms,
    otherwise. *)
Theorem maxage_one_day_in_production env :
  maxage env = (if decide (env = js "production") then 86400000 else 1000)
  ∧ 86400000 = 24 * 60 * 60 * 1000.
Proof.
  split; [|done]. unfold maxage, str_eq.
  case_decide as Henv.
  - by rewrite (bool_decide_eq_true_2 _ Henv).
  - by rewrite (bool_decide_eq_false_2 _ Henv).
Qed.

Example maxage_production : maxage (js "production") = 86400000.
Proof. reflexivity. Qed.

Example maxage_development : maxage (js "development") = 1000.
Proof. reflexivity. Qed.

(** ** The domain extractor *)

Section Replace.

Implicit Types s pat rep : jsstring.

Lemma starts_with_iff pat s :
  starts_with pat s = true ↔ ∃ rest, s = pat ++ rest.
Proof.
  revert s. induction pat as [|a pat IH]; intros s; simpl.
  - split; [by exists s|done].
  - destruct s as [|b s].
    + split; [done|]. by intros [rest ?].
    + rewrite andb_true_iff, N.eqb_eq, IH. split.
      * intros [-> [rest ->]]. by exists rest.
      * intros [rest [= -> ->]]. split; [done|]. by exists rest.
Qed.

(** A pattern at the start of the string is the occurrence replaced. *)
Lemma replace_prefix pat rep s : replace (pat ++ s) pat rep = rep ++ s.
Proof.
  assert (starts_with pat (pat ++ s) = true) as Hstart.
  { apply starts_with_iff. by exists s. }
  destruct (pat ++ s) as [|c t] eqn:Heq; simpl; rewrite Hstart;
    rewrite <- Heq; by rewrite drop_app_length.
Qed.

(** A string in which the pattern does not occur is returned as it is. *)
Lemma replace_absent s pat rep :
  (∀ before after, s ≠ before ++ pat ++ after) → replace s pat rep = s.
Proof.
  induction s as [|c s IH]; intros Habsent.
  - simpl. destruct (starts_with pat []) eqn:Hstart; [|done].
    apply starts_with_iff in Hstart as [rest Hrest].
    by destruct (Habsent [] rest).
  - simpl. destruct (starts_with pat (c :: s)) eqn:Hstart.
    + apply starts_with_iff in Hstart as [rest Hrest].
      by destruct (Habsent [] rest).
    + f_equal. apply IH. intros before after ->.
      by destruct (Habsent (c :: before) after).
Qed.

(** Otherwise one occurrence of the pattern, at the start or not, is
    replaced. *)
Lemma replace_occurrence s pat rep :
  replace s pat rep = s
  ∨ ∃ before after,
      s = before ++ pat ++ after ∧ replace s pat rep = before ++ rep ++ after.
Proof.
  induction s as [|c s IH].
  - simpl. destruct (starts_with pat []) eqn:Hstart; [|by left].
    apply starts_with_iff in Hstart as [rest Hrest]. right.
    exists [], rest. split; [done|]. simpl. f_equal.
    rewrite Hrest at 1. by rewrite drop_app_length.
  - simpl. destruct (starts_with pat (c :: s)) eqn:Hstart.
    + apply starts_with_iff in Hstart as [rest Hrest]. right.
      exists [], rest. split; [done|]. simpl. f_equal.
      rewrite Hrest. by rewrite drop_app_length.
    + destruct IH as [->|(before & after & -> & ->)]; [by left|].
      right. by exists (c :: before), after.
Qed.

End Replace.

(** The host header that starts with 'www.' loses it. *)
Lemma ctxAddDomain_strips_www_prefix next w rest :
  ctx_host (w_ctx w) = js "www." ++ rest →
  ctxAddDomain next w = next (set_ctx (set_state_domain rest (w_ctx w)) w).
Proof.
  intros Hhost. rewrite ctxAddDomain_run, Hhost.
  by rewrite (replace_prefix (js "www.") (js "") rest).
Qed.

(** The host header without 'www.' anywhere is stored as it is. *)
Lemma ctxAddDomain_keeps_host_without_www next w :
  (∀ before after, ctx_host (w_ctx w) ≠ before ++ js "www." ++ after) →
  ctxAddDomain next w
  = next (set_ctx (set_state_domain (ctx_host (w_ctx w)) (w_ctx w)) w).
Proof.
  intros Habsent. rewrite ctxAddDomain_run.
  by rewrite (replace_absent _ _ _ Habsent).
Qed.

Example ctxAddDomain_www_example_com :
  ctx_state_domain
    (w_ctx (ctxAddDomain (ret tt) (request (js "www.example.com") VUndefined)).2)
  = Some (js "example.com").
Proof. reflexivity. Qed.

Example ctxAddDomain_example_com :
  ctx_state_domain
    (w_ctx (ctxAddDomain (ret tt) (request (js "example.com") VUndefined)).2)
  = Some (js "example.com").
Proof. reflexivity. Qed.

(** C6. The domain extractor does not only remove a 'www.' prefix: the host
    'mywww.example.com' does not start with 'www.', and the domain stored
    for it is 'myexample.com', which is not the host and is no suffix of
    it. *)
Theorem ctxAddDomain_removes_inner_www :
  starts_with (js "www.") (js "mywww.example.com") = false
  ∧ ctxAddDomain (ret tt) (request (js "mywww.example.com") VUndefined)
    = (Returned tt,
       set_ctx (set_state_domain (js "myexample.com")
                  (w_ctx (request (js "mywww.example.com") VUndefined)))
               (request (js "mywww.example.com") VUndefined))
  ∧ js "myexample.com" ≠ js "mywww.example.com"
  ∧ ¬ (∃ label, js "mywww.example.com" = label ++ js "myexample.com").
Proof.
  split; [reflexivity|]. split; [reflexivity|]. split; [discriminate|].
  intros [label Hlabel].
  assert (length (js "mywww.example.com")
          = length label + length (js "myexample.com"))%nat as Hlen.
  { by rewrite Hlabel, length_app. }
  destruct label as [|a [|b [|c [|d [|? ?]]]]]; try (simpl in Hlen; lia);
    discriminate Hlabel.
Qed.

(** ** The examples of the specification, evaluated *)

(** [{fields: {a: " x ", b: ""}, files: {f: <file>}}] becomes
    [{fields: {a: "x", b: null}, files: {f: <file>}}]. *)
Example cleanPost_multipart_example :
  cleanPost (ret tt) (request (js "example.com") (VObj multipart_body))
  = (Returned tt,
     request (js "example.com")
       (VObj {[ js "fields" := VObj {[ js "a" := VStr (js "x");
                                       js "b" := VNull ]};
                js "files" := VObj {[ js "f" := a_file ]} ]})).
Proof. vm_compute. reflexivity. Qed.

(** [{name: "  Bob ", age: 42, note: "   "}] becomes
    [{name: "Bob", age: 42, note: null}]. *)
Example cleanPost_flat_example :
  cleanPost (ret tt) (request (js "example.com") (VObj flat_body))
  = (Returned tt,
     request (js "example.com")
       (VObj {[ js "name" := VStr (js "Bob"); js "age" := VNum 42;
                js "note" := VNull ]})).
Proof. vm_compute. reflexivity. Qed.

(** [{fields: {a: " x "}, files: "1", name: " bob "}] becomes
    [{fields: {a: "x"}, files: "1", name: " bob "}]. *)
Example cleanPost_both_keys_example :
  cleanPost (ret tt)
    (request (js "example.com") (VObj flat_body_with_both_keys))
  = (Returned tt,
     request (js "example.com")
       (VObj {[ js "fields" := VObj {[ js "a" := VStr (js "x") ]};
                js "files" := VStr (js "1");
                js "name" := VStr (js " bob ") ]})).
Proof. vm_compute. reflexivity. Qed.

(** A body that is not an object, such as a text body, makes the normalizer
    throw. *)
Example cleanPost_text_body :
  (cleanPost (ret tt) (request (js "example.com") (VStr (js "hello")))).1
  = Thrown (TypeError "Cannot use 'in' operator to search for a key in a primitive").
Proof. reflexivity. Qed.

(** A request for a page that does not exist, through the whole pipeline in
    production mode: the answer is the not-found page with status 404, and
    the access log has one record. *)
Example app_unknown_page :
  app (js "production") page printing_listener pass_through pass_through pass_through
    pass_through pass_through (request (js "www.example.com") VUndefined)
  = (Returned tt,
     World (Ctx (js "POST") (js "/contact") (js "www.example.com") VUndefined
                404 (Some (page (js "404-not-found") [(js "msg", BNull)]))
                (Some (js "example.com")))
           0 [Access (js "POST") (js "/contact") 404 0] []
           [(js "404-not-found", [(js "msg", BNull)])] []).
Proof. reflexivity. Qed.

(** [{fields: "", files: "1", name: " bob "}] is left as it is. *)
Example cleanPost_form_with_both_keys :
  cleanPost (ret tt) (request (js "example.com") (VObj form_with_both_keys))
  = (Returned tt, request (js "example.com") (VObj form_with_both_keys)).
Proof. vm_compute. reflexivity. Qed.

(** [{fields: "abc", files: "1"}]: the loop goes through the characters of
    [fields], and the assignment to the first of them throws. *)
Example cleanPost_form_with_string_fields :
  (cleanPost (ret tt)
     (request (js "example.com")
        (VObj {[ js "fields" := VStr (js "abc");
                 js "files" := VStr (js "1") ]}))).1
  = Thrown (TypeError "Cannot assign to read only property '0' of string").
Proof. vm_compute. reflexivity. Qed.

(** * Further properties of the middleware *)

(** ** White space and trimming *)

Section Trimming.

Implicit Types s : jsstring.

Lemma trimStart_nil_iff s :
  trimStart s = [] ↔ forallb is_white_space s = true.
Proof.
  induction s as [|c s IH]; [done|]. simpl.
  destruct (is_white_space c); [done|]. split; discriminate.
Qed.

Lemma forallb_reverse s :
  forallb is_white_space (reverse s) = forallb is_white_space s.
Proof.
  apply eq_true_iff_eq. rewrite !forallb_forall. split; intros H c Hc;
    apply H; apply list_elem_of_In; apply list_elem_of_In in Hc;
    by apply elem_of_reverse.
Qed.

Lemma reverse_nil_iff s : reverse s = [] ↔ s = [].
Proof.
  split; [|by intros ->]. intros H.
  apply (f_equal reverse) in H. by rewrite reverse_involutive in H.
Qed.

(** Nothing is left of a string exactly when it is all white space. *)
Lemma trim_nil_iff s : trim s = [] ↔ forallb is_white_space s = true.
Proof.
  split.
  - intros Hnil. destruct (trim_split s) as (pre & post & Hs & Hpre & Hpost).
    rewrite Hnil in Hs. rewrite Hs. simpl.
    rewrite forallb_app. apply andb_true_intro. by split.
  - intros Hws. unfold trim. apply trimStart_nil_iff in Hws.
    by rewrite Hws.
Qed.

Lemma trimStart_fixed s :
  (∀ c, first_unit s = Some c → is_white_space c = false) → trimStart s = s.
Proof.
  destruct s as [|d s]; [done|]. intros H. simpl.
  by rewrite (H d eq_refl).
Qed.

Lemma trimEnd_fixed s :
  (∀ c, last_unit s = Some c → is_white_space c = false) → trimEnd s = s.
Proof.
  intros H. unfold trimEnd. rewrite trimStart_fixed.
  - apply reverse_involutive.
  - intros c Hc. apply H.
    rewrite <- (last_reverse_head (reverse s)) in Hc.
    by rewrite reverse_involutive in Hc.
Qed.

(** A string without white space at its ends is its own trimming. *)
Lemma trim_fixed s :
  (∀ c, first_unit s = Some c → is_white_space c = false) →
  (∀ c, last_unit s = Some c → is_white_space c = false) →
  trim s = s.
Proof.
  intros Hfirst Hlast. unfold trim.
  rewrite (trimStart_fixed _ Hfirst). by apply trimEnd_fixed.
Qed.

Lemma trim_trim s : trim (trim s) = trim s.
Proof. apply trim_fixed; [apply trim_first|apply trim_last]. Qed.

Lemma normalize_value_idemp v :
  normalize_value (normalize_value v) = normalize_value v.
Proof.
  destruct v as [| | | |s|]; try done. simpl.
  destruct (trim s) as [|c t] eqn:Ht; [done|].
  simpl. rewrite <- Ht, trim_trim, Ht. done.
Qed.

Lemma normalize_value_null_iff v :
  normalize_value v = VNull
  ↔ v = VNull ∨ ∃ s, v = VStr s ∧ forallb is_white_space s = true.
Proof.
  destruct v as [| | | |s|]; simpl;
    try (split; [done|by intros [?|(? & ? & ?)]]).
  - split; [by left|done].
  - split.
    + intros H. right. exists s. split; [done|]. apply trim_nil_iff.
      by destruct (trim s).
    + intros [?|(s' & [= <-] & Hs')]; [done|].
      apply trim_nil_iff in Hs'. by rewrite Hs'.
Qed.

End Trimming.

(** ** The body normalizer on any body *)

Section CleanPostRun.

Implicit Types (o body : gmap jsstring value) (key : jsstring).

Lemma with_request_body_same w :
  with_request_body (ctx_request_body (w_ctx w)) w = w.
Proof. by destruct w as [[]]. Qed.

Lemma get_lookup o key :
  is_Some (o !! key) → o !! key = Some (get o key).
Proof. intros [v Hv]. unfold get. by rewrite Hv. Qed.

(** [cleanPost] either throws, leaving the state as it is, or hands the
    request on with the normalized body. *)
Lemma cleanPost_run next w :
  cleanPost next w
  = match normalized_body (ctx_request_body (w_ctx w)) with
    | Returned b => next (with_request_body b w)
    | Thrown e => (Thrown e, w)
    end.
Proof.
  destruct (ctx_request_body (w_ctx w)) as [| | | | |o] eqn:Hb;
    try (unfold cleanPost, mbind, M_bind, bind, gets; by rewrite Hb).
  - rewrite (cleanPost_undefined _ _ Hb). simpl.
    by rewrite <- Hb, with_request_body_same.
  - simpl. destruct (has_key (js "fields") o) eqn:Hfields; simpl.
    + destruct (has_key (js "files") o) eqn:Hfiles.
      * apply has_key_true in Hfields, Hfiles.
        pose proof (get_lookup _ _ Hfields) as Hget.
        destruct (get o (js "fields")) as [| | | |[|c s]|fields] eqn:Hv;
          try (unfold cleanPost, mbind, M_bind, bind, gets; rewrite Hb;
               simpl; apply has_key_true in Hfields, Hfiles;
               rewrite Hfields, Hfiles; simpl; rewrite Hv; simpl;
               by rewrite (insert_id _ _ _ Hget)).
        -- unfold cleanPost, mbind, M_bind, bind, gets. rewrite Hb.
           simpl. apply has_key_true in Hfields, Hfiles.
           rewrite Hfields, Hfiles. simpl. by rewrite Hv.
        -- by apply cleanPost_multipart.
      * apply cleanPost_flat; [done|]. right. by apply has_key_false.
    + apply cleanPost_flat; [done|]. left. by apply has_key_false.
Qed.

Lemma fields_files_ne : js "fields" ≠ js "files".
Proof. discriminate. Qed.

Lemma has_key_fmap key o :
  has_key key (normalize_value <$> o) = has_key key o.
Proof.
  unfold has_key. apply bool_decide_ext.
  rewrite lookup_fmap. apply fmap_is_Some.
Qed.

Lemma normalize_fmap_idemp o :
  normalize_value <$> (normalize_value <$> o) = normalize_value <$> o.
Proof.
  apply map_eq. intros key. rewrite !lookup_fmap.
  destruct (o !! key); simpl; [|done]. by rewrite normalize_value_idemp.
Qed.

(** A body the normalizer has left is left as it is by the normalizer. *)
Lemma normalized_body_fixed b b' :
  normalized_body b = Returned b' → normalized_body b' = Returned b'.
Proof.
  destruct b as [| | | | |o]; try done; simpl.
  - by intros [= <-].
  - destruct (has_key (js "fields") o) eqn:Hfields; simpl.
    + destruct (has_key (js "files") o) eqn:Hfiles.
      * destruct (get o (js "fields")) as [| | | |[|c s]|fields] eqn:Hv;
          try (intros [= <-]; simpl; by rewrite Hfields, Hfiles, Hv).
        intros [= <-]. simpl.
        assert (has_key (js "fields")
                  (<[js "fields" := VObj (normalize_value <$> fields)]> o)
                = true) as ->.
        { apply has_key_true. by rewrite lookup_insert_eq. }
        assert (has_key (js "files")
                  (<[js "fields" := VObj (normalize_value <$> fields)]> o)
                = true) as ->.
        { apply has_key_true.
          rewrite (lookup_insert_ne _ _ _ _ fields_files_ne).
          by apply has_key_true. }
        simpl. rewrite get_insert.
        by rewrite insert_insert_eq, normalize_fmap_idemp.
      * intros [= <-]. simpl. rewrite !has_key_fmap, Hfields, Hfiles. simpl.
        by rewrite normalize_fmap_idemp.
    + intros [= <-]. simpl. rewrite !has_key_fmap, Hfields. simpl.
      by rewrite normalize_fmap_idemp.
Qed.

(** The loop normalizes the fields it visits, also when it visits one more
    than once. *)
Lemma lookup_for_in_clean_any keys body j :
  for_in_clean keys body !! j
  = if decide (j ∈ keys) then normalize_value <$> body !! j else body !! j.
Proof.
  unfold for_in_clean. revert body.
  induction keys as [|key keys IH]; intros body; simpl; [done|].
  rewrite IH, lookup_clean_key.
  destruct (decide (key = j)) as [->|Hne].
  - rewrite (decide_True (P := j ∈ j :: keys)) by left.
    case_decide; [|done].
    destruct (body !! j); simpl; [|done]. by rewrite normalize_value_idemp.
  - destruct (decide (j ∈ keys)) as [Hin|Hin].
    + rewrite decide_True by (by right). done.
    + rewrite decide_False; [done|].
      intros [->|?]%elem_of_cons; done.
Qed.

End CleanPostRun.

(** [cleanPost] touches nothing but [ctx.request.body]: either it throws an
    error of its own, which has no status, and leaves the state as it was,
    or it hands the request on with a body in place of the parsed one and
    everything else as it was. *)
Theorem cleanPost_only_touches_body next w :
  (∃ e, cleanPost next w = (Thrown e, w) ∧ err_status e = None)
  ∨ (∃ b, cleanPost next w = next (with_request_body b w)).
Proof.
  rewrite cleanPost_run.
  destruct (normalized_body (ctx_request_body (w_ctx w))) as [b|e] eqn:Hb.
  - right. by exists b.
  - left. exists e. split; [done|].
    destruct (ctx_request_body (w_ctx w)) as [| | | | |o]; simpl in Hb;
      try (by injection Hb as <-); try done.
    destruct (has_key (js "fields") o && has_key (js "files") o); [|done].
    destruct (get o (js "fields")) as [| | | |[|c s]|]; try done.
    by injection Hb as <-.
Qed.

(** Normalizing twice is normalizing once: with [cleanPost] registered
    twice in a row, the second one changes nothing, and throws nothing the
    first one has not thrown. *)
Theorem cleanPost_idempotent next w :
  cleanPost (cleanPost next) w = cleanPost next w.
Proof.
  rewrite (cleanPost_run (cleanPost next)), (cleanPost_run next).
  destruct (normalized_body (ctx_request_body (w_ctx w))) as [b|e] eqn:Hb;
    [|done].
  rewrite cleanPost_run. simpl.
  by rewrite (normalized_body_fixed _ _ Hb).
Qed.

(** A parsed body that is null, a boolean, a number or a string makes
    [cleanPost] throw a [TypeError], which has no status: the state is left
    as it was and [next] is not called. *)
Theorem cleanPost_throws_on_primitive_body next w :
  is_primitive_body (ctx_request_body (w_ctx w)) = true →
  ∃ e, cleanPost next w = (Thrown e, w) ∧ err_status e = None.
Proof.
  intros Hprim. rewrite cleanPost_run.
  destruct (ctx_request_body (w_ctx w)); try done; by eexists.
Qed.

Lemma cleanPost_throws_on_primitive_body_witness :
  ∃ e, cleanPost slow_handler (request (js "example.com") VNull)
       = (Thrown e, request (js "example.com") VNull)
     ∧ err_status e = None.
Proof.
  apply (cleanPost_throws_on_primitive_body slow_handler
           (request (js "example.com") VNull)).
  reflexivity.
Defined.

(** Behind the error boundary such a body is answered with status 500 and
    the internal-error view, whatever the rest of the chain is: no route
    sees the request. *)
Theorem handleErrors_answers_primitive_body env template on_error next w :
  is_primitive_body (ctx_request_body (w_ctx w)) = true →
  ∃ w' context,
    handleErrors env template on_error (cleanPost next) w = (Returned tt, w')
    ∧ ctx_status (w_ctx w') = 500
    ∧ w_rendered w'
      = w_rendered w ++ [(js "500-internal-server-error", context)]
    ∧ ctx_request_body (w_ctx w') = ctx_request_body (w_ctx w).
Proof.
  intros Hprim.
  assert (∃ message, cleanPost next w = (Thrown (Error None message), w))
    as (message & Hrun).
  { rewrite cleanPost_run.
    destruct (ctx_request_body (w_ctx w)); try done; by eexists. }
  rewrite (handleErrors_thrown _ _ _ _ _ _ _ Hrun).
  rewrite handleErrors_catch_500 by done.
  by eexists _, _.
Qed.

Lemma handleErrors_answers_primitive_body_witness :
  ∃ w' context,
    handleErrors (js "production") page printing_listener (cleanPost slow_handler)
      (request (js "example.com") (VStr (js "hello"))) = (Returned tt, w')
    ∧ ctx_status (w_ctx w') = 500
    ∧ w_rendered w' = [(js "500-internal-server-error", context)]
    ∧ ctx_request_body (w_ctx w') = VStr (js "hello").
Proof.
  apply (handleErrors_answers_primitive_body (js "production") page printing_listener
           slow_handler (request (js "example.com") (VStr (js "hello")))).
  reflexivity.
Defined.

(** [cleanPost] adds no field and removes none: when it does not throw, the
    body it hands on has the keys of the parsed body. *)
Theorem cleanPost_keeps_keys next w o :
  ctx_request_body (w_ctx w) = VObj o →
  (∃ e, cleanPost next w = (Thrown e, w))
  ∨ (∃ o', cleanPost next w = next (with_request_body (VObj o') w)
         ∧ dom o' = dom o).
Proof.
  intros Hb. rewrite cleanPost_run, Hb. simpl.
  destruct (has_key (js "fields") o && has_key (js "files") o) eqn:Hmp.
  - destruct (get o (js "fields")) as [| | | |[|c s]|fields] eqn:Hv;
      try (right; by eexists).
    + left. by eexists.
    + right. eexists. split; [done|].
      apply andb_true_iff in Hmp as [Hfields%has_key_true _].
      by apply dom_insert_lookup_L.
  - right. eexists. split; [done|]. apply dom_fmap_L.
Qed.

Lemma cleanPost_keeps_keys_witness :
  ∃ o', cleanPost (ret tt) (request (js "example.com") (VObj flat_body))
        = ret tt (request (js "example.com") (VObj o'))
      ∧ dom o' = dom flat_body.
Proof.
  destruct (cleanPost_keeps_keys (ret tt)
              (request (js "example.com") (VObj flat_body)) flat_body eq_refl)
    as [[e He]|(o' & Hrun & Hdom)].
  - exfalso. rewrite cleanPost_run in He. simpl in He. discriminate He.
  - exists o'. split; [exact Hrun|exact Hdom].
Defined.

(** In a flat body a field is null after [cleanPost] exactly when it was
    null or was a string of white space only, the empty string included. *)
Theorem cleanPost_null_iff_blank next w o :
  ctx_request_body (w_ctx w) = VObj o →
  o !! js "fields" = None ∨ o !! js "files" = None →
  ∃ o', cleanPost next w = next (with_request_body (VObj o') w)
    ∧ ∀ key,
        o' !! key = Some VNull
        ↔ o !! key = Some VNull
          ∨ ∃ s, o !! key = Some (VStr s)
                 ∧ forallb is_white_space s = true.
Proof.
  intros Hb Hflat. eexists. split; [by apply cleanPost_flat|].
  intros key. rewrite lookup_fmap.
  destruct (o !! key) as [v|]; simpl.
  - split.
    + intros [= [->|(s & -> & Hs)]%normalize_value_null_iff];
        [by left|right; by exists s].
    + intros [[= ->]|(s & [= ->] & Hs)]; [done|].
      f_equal. apply normalize_value_null_iff. right. by exists s.
  - split; [done|]. by intros [?|(s & ? & _)].
Qed.

Lemma cleanPost_null_iff_blank_witness :
  ∃ o', cleanPost (ret tt) (request (js "example.com") (VObj flat_body))
        = ret tt (request (js "example.com") (VObj o'))
      ∧ o' !! js "note" = Some VNull.
Proof.
  destruct (cleanPost_null_iff_blank (ret tt)
              (request (js "example.com") (VObj flat_body)) flat_body eq_refl)
    as (o' & Hrun & Hnull); [left; reflexivity|].
  exists o'. split; [exact Hrun|].
  apply (proj2 (Hnull (js "note"))).
  right. exists (js "   "). split; reflexivity.
Defined.

(** After [cleanPost] the string-valued fields are trimmed: of the body when
    it is flat, of its [fields] when it is multipart. None of them is empty,
    and none starts or ends with white space. *)
Theorem cleanPost_leaves_fields_trimmed next w o :
  ctx_request_body (w_ctx w) = VObj o →
  (o !! js "fields" = None ∨ o !! js "files" = None →
   ∃ o', cleanPost next w = next (with_request_body (VObj o') w)
       ∧ fields_trimmed o')
  ∧ (∀ fields,
       o !! js "fields" = Some (VObj fields) → is_Some (o !! js "files") →
       ∃ fields',
         cleanPost next w
         = next (with_request_body
                   (VObj (<[js "fields" := VObj fields']> o)) w)
         ∧ fields_trimmed fields').
Proof.
  intros Hb.
  assert (∀ m : gmap jsstring value, fields_trimmed (normalize_value <$> m))
    as Htrimmed.
  { intros m key s. rewrite lookup_fmap.
    destruct (m !! key) as [[| | | |t|]|]; simpl; try done.
    destruct (trim t) as [|c u] eqn:Ht; [done|].
    intros [= <-]. rewrite <- Ht. split; [by rewrite Ht|].
    split; [apply trim_first|apply trim_last]. }
  split.
  - intros Hflat. eexists. split; [by apply cleanPost_flat|]. apply Htrimmed.
  - intros fields Hfields Hfiles. eexists.
    split; [by apply cleanPost_multipart|]. apply Htrimmed.
Qed.

Lemma cleanPost_leaves_fields_trimmed_witness :
  (∃ o', cleanPost (ret tt) (request (js "example.com") (VObj flat_body))
         = ret tt (request (js "example.com") (VObj o'))
       ∧ fields_trimmed o')
  ∧ (∃ fields',
       cleanPost (ret tt) (request (js "example.com") (VObj multipart_body))
       = ret tt (request (js "example.com")
                   (VObj (<[js "fields" := VObj fields']> multipart_body)))
       ∧ fields_trimmed fields').
Proof.
  destruct (cleanPost_leaves_fields_trimmed (ret tt)
              (request (js "example.com") (VObj flat_body)) flat_body eq_refl)
    as [Hflat _].
  destruct (cleanPost_leaves_fields_trimmed (ret tt)
              (request (js "example.com") (VObj multipart_body))
              multipart_body eq_refl)
    as [_ Hmulti].
  split.
  - apply Hflat. left. reflexivity.
  - apply (Hmulti multipart_fields); [reflexivity|eexists; reflexivity].
Defined.

(** The loop of [cleanPost] gives the same body in whatever order it visits
    the keys, as long as it visits every key of the body. *)
Theorem for_in_clean_order_irrelevant (keys : list jsstring)
  (o : gmap jsstring value) :
  (∀ key, is_Some (o !! key) → key ∈ keys) →
  for_in_clean keys o = for_in_clean (for_in_keys o) o.
Proof.
  intros Hall.
  destruct (for_in_keys_spec o) as [Hnd Hkeys].
  rewrite (for_in_clean_fmap _ _ Hnd Hkeys).
  apply map_eq. intros key.
  rewrite lookup_for_in_clean_any, lookup_fmap.
  case_decide as Hin; [done|].
  destruct (o !! key) eqn:Hkey; [|done].
  exfalso. apply Hin, Hall. by rewrite Hkey.
Qed.

Lemma for_in_clean_order_irrelevant_witness :
  for_in_clean [js "note"; js "age"; js "name"; js "note"] flat_body
  = for_in_clean (for_in_keys flat_body) flat_body.
Proof.
  apply for_in_clean_order_irrelevant.
  intros key [v Hv]. unfold flat_body in Hv.
  apply lookup_insert_Some in Hv as [[<- _]|[_ Hv]].
  { apply list_elem_of_In. simpl. tauto. }
  apply lookup_insert_Some in Hv as [[<- _]|[_ Hv]].
  { apply list_elem_of_In. simpl. tauto. }
  apply lookup_singleton_Some in Hv as [<- _].
  apply list_elem_of_In. simpl. tauto.
Defined.

(** A body that has both keys and whose [fields] is neither an object nor a
    non-empty string is handed on as it is: nothing is normalized. *)
Theorem cleanPost_skips_body_without_field_keys next w o :
  ctx_request_body (w_ctx w) = VObj o →
  is_Some (o !! js "fields") → is_Some (o !! js "files") →
  has_no_keys (get o (js "fields")) = true →
  cleanPost next w = next w.
Proof.
  intros Hb Hfields%has_key_true Hfiles%has_key_true Hnone.
  rewrite cleanPost_run, Hb. simpl. rewrite Hfields, Hfiles. simpl.
  destruct (get o (js "fields")) as [| | | |[|c s]|]; try done;
    by rewrite <- Hb, with_request_body_same.
Qed.

Lemma cleanPost_skips_body_without_field_keys_witness :
  cleanPost slow_handler
    (request (js "example.com") (VObj form_with_both_keys))
  = slow_handler (request (js "example.com") (VObj form_with_both_keys)).
Proof.
  apply (cleanPost_skips_body_without_field_keys slow_handler
           (request (js "example.com") (VObj form_with_both_keys))
           form_with_both_keys eq_refl).
  - eexists. reflexivity.
  - eexists. reflexivity.
  - reflexivity.
Defined.

(** A body that has both keys and whose [fields] is a non-empty string makes
    [cleanPost] throw a [TypeError]: the state is left as it was and [next]
    is not called. *)
Theorem cleanPost_throws_on_string_fields next w o c s :
  ctx_request_body (w_ctx w) = VObj o →
  o !! js "fields" = Some (VStr (c :: s)) → is_Some (o !! js "files") →
  ∃ e, cleanPost next w = (Thrown e, w) ∧ err_status e = None.
Proof.
  intros Hb Hfields Hfiles%has_key_true.
  rewrite cleanPost_run, Hb. simpl.
  assert (has_key (js "fields") o = true) as ->.
  { apply has_key_true. by rewrite Hfields. }
  rewrite Hfiles. simpl. unfold get. rewrite Hfields. simpl. by eexists.
Qed.

Lemma cleanPost_throws_on_string_fields_witness :
  ∃ e, cleanPost slow_handler
         (request (js "example.com")
            (VObj {[ js "fields" := VStr (js "abc");
                     js "files" := VStr (js "1") ]}))
       = (Thrown e,
          request (js "example.com")
            (VObj {[ js "fields" := VStr (js "abc");
                     js "files" := VStr (js "1") ]}))
     ∧ err_status e = None.
Proof.
  apply (cleanPost_throws_on_string_fields slow_handler
           (request (js "example.com")
              (VObj {[ js "fields" := VStr (js "abc");
                       js "files" := VStr (js "1") ]}))
           {[ js "fields" := VStr (js "abc"); js "files" := VStr (js "1") ]}
           97%N (js "bc") eq_refl).
  - reflexivity.
  - eexists. reflexivity.
Defined.

(** ** The error boundary and the rest of the state *)

(** Handling an error it can answer, the boundary changes the status and
    the body of the response and nothing else of the context: the request,
    its parsed body and what the middleware downstream stored in [ctx.state]
    before they threw are kept, and the access log is not touched. *)
Theorem handleErrors_keeps_request env template on_error next w e w1 :
  next w = (Thrown e, w1) →
  answerable e = true →
  ∃ w', handleErrors env template on_error next w = (Returned tt, w')
    ∧ ctx_method (w_ctx w') = ctx_method (w_ctx w1)
    ∧ ctx_path (w_ctx w') = ctx_path (w_ctx w1)
    ∧ ctx_host (w_ctx w') = ctx_host (w_ctx w1)
    ∧ ctx_request_body (w_ctx w') = ctx_request_body (w_ctx w1)
    ∧ ctx_state_domain (w_ctx w') = ctx_state_domain (w_ctx w1)
    ∧ w_access w' = w_access w1.
Proof.
  intros Hnext Hok.
  rewrite (handleErrors_thrown _ _ _ _ _ _ _ Hnext).
  rewrite (handleErrors_catch_returns _ _ _ _ _ Hok).
  eexists. split; [done|]. by case_decide.
Qed.

(** The theorem at a chain that stores the domain and then throws. *)
Lemma handleErrors_keeps_request_witness :
  ∃ w', handleErrors (js "production") page printing_listener
          (ctxAddDomain (throw failure))
          (request (js "www.example.com") VUndefined) = (Returned tt, w')
    ∧ ctx_state_domain (w_ctx w') = Some (js "example.com")
    ∧ ctx_host (w_ctx w') = js "www.example.com".
Proof.
  destruct (handleErrors_keeps_request (js "production") page
              printing_listener (ctxAddDomain (throw failure))
              (request (js "www.example.com") VUndefined) failure _ eq_refl
              eq_refl)
    as (w' & Hrun & _ & _ & Hhost & _ & Hdomain & _).
  exists w'. split; [exact Hrun|]. split; [exact Hdomain|exact Hhost].
Defined.

(** For an error of status 404 the boundary writes nothing to the console
    and no listener runs. For every other error it can answer it writes one
    line, the status of the response and the message of the error, and after
    that line come the lines that the listeners of 'error' print, which are
    given the context with the page already rendered. *)
Theorem handleErrors_console env template on_error next w e w1 :
  next w = (Thrown e, w1) →
  answerable e = true →
  ∃ w', handleErrors env template on_error next w = (Returned tt, w')
    ∧ w_console w'
      = if decide (err_status e = Some 404) then w_console w1
        else w_console w1
             ++ [[PNum (ctx_status (w_ctx w')); PStr (err_message e)]]
             ++ on_error e (w_ctx w').
Proof.
  intros Hnext Hok.
  rewrite (handleErrors_thrown _ _ _ _ _ _ _ Hnext).
  rewrite (handleErrors_catch_returns _ _ _ _ _ Hok).
  eexists. split; [done|].
  destruct (decide (status_or (err_status e) 500 = 404)) as [Hst|Hst].
  - rewrite decide_True by (by apply status_or_404). done.
  - rewrite decide_False by (by rewrite <- status_or_404). done.
Qed.

Lemma handleErrors_console_witness :
  (∃ w', handleErrors (js "production") page printing_listener
           (throw forbidden) (request (js "example.com") VUndefined)
         = (Returned tt, w')
       ∧ w_console w'
         = [[PNum 403; PStr (js "Forbidden")];
            []; [PStr (js "Forbidden")]; []])
  ∧ (∃ w', handleErrors (js "production") page printing_listener
             (throw no_such_member) (request (js "example.com") VUndefined)
           = (Returned tt, w')
         ∧ w_console w' = []).
Proof.
  split.
  - destruct (handleErrors_console (js "production") page printing_listener
                (throw forbidden) (request (js "example.com") VUndefined)
                forbidden _ eq_refl eq_refl)
      as (w' & Hrun & Hconsole).
    exists w'. split; [exact Hrun|].
    rewrite Hconsole. simpl.
    pose proof Hrun as Hrun'. vm_compute in Hrun'.
    injection Hrun' as <-. reflexivity.
  - destruct (handleErrors_console (js "production") page printing_listener
                (throw no_such_member)
                (request (js "example.com") VUndefined) no_such_member _
                eq_refl eq_refl)
      as (w' & Hrun & Hconsole).
    exists w'. split; [exact Hrun|exact Hconsole].
Defined.

(** An error the boundary cannot answer escapes it: an [Error] object whose
    status is neither 0 nor in 100..999, or a thrown null or undefined. What
    comes out of the boundary is an error without a status, and the state is
    as the middleware downstream left it: no status is set, nothing is
    written to the console, rendered or emitted. *)
Theorem handleErrors_lets_others_escape env template on_error next w e w1 :
  next w = (Thrown e, w1) →
  answerable e = false →
  ∃ e', handleErrors env template on_error next w = (Thrown e', w1)
      ∧ err_status e' = None.
Proof.
  intros Hnext Hno. rewrite (handleErrors_thrown _ _ _ _ _ _ _ Hnext).
  by apply handleErrors_catch_throws.
Qed.

(** The theorem at an error of status 1000 and at a thrown [null]. *)
Lemma handleErrors_lets_others_escape_witness :
  (∃ e', handleErrors (js "production") page printing_listener
           (throw out_of_range) (request (js "example.com") VUndefined)
         = (Thrown e', request (js "example.com") VUndefined)
       ∧ err_status e' = None)
  ∧ (∃ e', handleErrors (js "production") page printing_listener
             (throw thrown_null) (request (js "example.com") VUndefined)
           = (Thrown e', request (js "example.com") VUndefined)
         ∧ err_status e' = None).
Proof.
  split.
  - apply (handleErrors_lets_others_escape (js "production") page
             printing_listener (throw out_of_range)
             (request (js "example.com") VUndefined) out_of_range);
      reflexivity.
  - apply (handleErrors_lets_others_escape (js "production") page
             printing_listener (throw thrown_null)
             (request (js "example.com") VUndefined) thrown_null);
      reflexivity.
Defined.

(** ** The access logger and exceptions *)

(** The theorem [logAccess_thrown] at a handler that stores a page and then
    throws: the error comes out and the log stays empty. *)
Lemma logAccess_thrown_witness :
  logAccess (failing_handler failure) (request (js "example.com") VUndefined)
  = failing_handler failure (request (js "example.com") VUndefined)
  ∧ w_access (logAccess (failing_handler failure)
                (request (js "example.com") VUndefined)).2 = [].
Proof.
  pose proof (logAccess_thrown (failing_handler failure)
                (request (js "example.com") VUndefined) failure _ eq_refl)
    as Hrun.
  split; [exact Hrun|]. rewrite Hrun. reflexivity.
Defined.

Lemma logAccess_ext next next' w :
  next w = next' w → logAccess next w = logAccess next' w.
Proof.
  intros Hnext. unfold logAccess, mbind, M_bind, bind, Date_now, gets.
  by rewrite Hnext.
Qed.

(** For a request that the static file server passes on, and layers inside
    the boundary that throw nothing but errors the boundary can answer, the
    application returns, and the access log gets one record, with the status
    the boundary has left and the time read when the boundary returned less
    the time read when the logger started. *)
Theorem app_returns_and_logs_once
  env template on_error serve handlebars flash lusca routes w :
  (∀ next, serve next w = next w) →
  (∀ next w0, handlebars next w0 = next w0) →
  (∀ e w1,
     compose (layer_middleware env template on_error serve handlebars flash
                lusca routes <$> downstream) w = (Thrown e, w1) →
     answerable e = true) →
  ∃ w1 w',
    handleErrors env template on_error
      (compose (layer_middleware env template on_error serve handlebars flash
                  lusca routes <$> downstream)) w = (Returned tt, w1)
    ∧ app env template on_error serve handlebars flash lusca routes w
      = (Returned tt, w')
    ∧ w_access w'
      = w_access w1
        ++ [Access (ctx_method (w_ctx w1)) (ctx_path (w_ctx w1))
                   (ctx_status (w_ctx w1)) (w_now w1 - w_now w)]
    ∧ w_ctx w' = w_ctx w1.
Proof.
  intros Hserve Hhandlebars Hok.
  destruct (handleErrors_returns env template on_error _ w Hok) as [w1 Hrun].
  exists w1. rewrite app_layers, Hserve.
  rewrite (logAccess_ext _ _ _ (Hhandlebars _ w)).
  rewrite (logAccess_returned _ _ _ Hrun).
  eexists. by repeat split.
Qed.

(** The theorem at a router that throws [ctx.throw(403)]. *)
Lemma app_returns_and_logs_once_witness :
  ∃ w',
    app (js "production") page printing_listener pass_through pass_through
      pass_through pass_through (fun _ => throw forbidden)
      (request (js "example.com") VUndefined) = (Returned tt, w')
    ∧ w_access w' = [Access (js "POST") (js "/contact") 403 0].
Proof.
  destruct (app_returns_and_logs_once (js "production") page
              printing_listener pass_through pass_through pass_through
              pass_through (fun _ => throw forbidden)
              (request (js "example.com") VUndefined))
    as (w1 & w' & Hboundary & Hrun & Hlog & _).
  - reflexivity.
  - reflexivity.
  - intros e w1 Hthrown. vm_compute in Hthrown.
    injection Hthrown as <- _. reflexivity.
  - exists w'. split; [exact Hrun|].
    rewrite Hlog. vm_compute in Hboundary.
    injection Hboundary as <-. reflexivity.
Defined.

(** For a request that the static file server passes on, an error that the
    boundary cannot answer comes out of the whole application, as an error
    without a status, and the access log gets no record. *)
Theorem app_throws_and_logs_nothing
  env template on_error serve handlebars flash lusca routes w e w1 :
  (∀ next, serve next w = next w) →
  (∀ next w0, handlebars next w0 = next w0) →
  compose (layer_middleware env template on_error serve handlebars flash
             lusca routes <$> downstream) w = (Thrown e, w1) →
  answerable e = false →
  ∃ e', app env template on_error serve handlebars flash lusca routes w
        = (Thrown e', w1)
      ∧ err_status e' = None.
Proof.
  intros Hserve Hhandlebars Hthrown Hno.
  rewrite app_layers, Hserve.
  rewrite (logAccess_ext _ _ _ (Hhandlebars _ w)).
  destruct (handleErrors_catch_throws env template on_error e w1 Hno)
    as (e' & Hcatch & Hstatus).
  exists e'. split; [|done].
  unfold logAccess, mbind, M_bind, bind, Date_now, gets.
  rewrite (handleErrors_thrown _ _ _ _ _ _ _ Hthrown). by rewrite Hcatch.
Qed.

(** The theorem at a router that throws an error of status 1000. *)
Lemma app_throws_and_logs_nothing_witness :
  ∃ e' w1,
    app (js "production") page printing_listener pass_through pass_through
      pass_through pass_through (fun _ => throw out_of_range)
      (request (js "example.com") VUndefined) = (Thrown e', w1)
    ∧ err_status e' = None
    ∧ w_access w1 = [].
Proof.
  destruct (app_throws_and_logs_nothing (js "production") page
              printing_listener pass_through pass_through pass_through
              pass_through (fun _ => throw out_of_range)
              (request (js "example.com") VUndefined) out_of_range
              (set_ctx (set_state_domain (js "example.com")
                          (w_ctx (request (js "example.com") VUndefined)))
                       (request (js "example.com") VUndefined)))
    as (e' & Hrun & Hstatus).
  - reflexivity.
  - reflexivity.
  - reflexivity.
  - reflexivity.
  - eexists e', _. split; [exact Hrun|]. split; [exact Hstatus|reflexivity].
Defined.

(** ** The domain extractor on any host *)

(** The occurrence of the pattern that [replace] rewrites is the leftmost
    one. *)
Lemma replace_leftmost (s pat rep before after : jsstring) :
  s = before ++ pat ++ after →
  (∀ before' after',
     s = before' ++ pat ++ after' → (length before ≤ length before')%nat) →
  replace s pat rep = before ++ rep ++ after.
Proof.
  revert s. induction before as [|c before IH]; intros s -> Hleft.
  - exact (replace_prefix pat rep after).
  - simpl. destruct (starts_with pat (c :: before ++ pat ++ after)) eqn:Hstart.
    + apply starts_with_iff in Hstart as [rest Hrest].
      specialize (Hleft [] rest Hrest). simpl in Hleft. lia.
    + f_equal. apply IH; [done|].
      intros before' after' Hocc.
      specialize (Hleft (c :: before') after'). simpl in Hleft.
      rewrite Hocc in Hleft. specialize (Hleft eq_refl). lia.
Qed.

(** The domain stored is the host without its leftmost 'www.', wherever
    that is; what comes before it and what comes after it are kept. *)
Theorem ctxAddDomain_removes_leftmost_www next w before after :
  ctx_host (w_ctx w) = before ++ js "www." ++ after →
  (∀ before' after',
     ctx_host (w_ctx w) = before' ++ js "www." ++ after' →
     (length before ≤ length before')%nat) →
  ctxAddDomain next w
  = next (set_ctx (set_state_domain (before ++ after) (w_ctx w)) w).
Proof.
  intros Hhost Hleft. rewrite ctxAddDomain_run.
  by rewrite (replace_leftmost _ (js "www.") (js "") before after Hhost Hleft).
Qed.

(** The theorem at the host 'shop.www.example.com'. *)
Lemma ctxAddDomain_removes_leftmost_www_witness :
  ctxAddDomain (ret tt) (request (js "shop.www.example.com") VUndefined)
  = ret tt (set_ctx (set_state_domain (js "shop.example.com")
                       (w_ctx (request (js "shop.www.example.com")
                                 VUndefined)))
                    (request (js "shop.www.example.com") VUndefined)).
Proof.
  apply (ctxAddDomain_removes_leftmost_www (ret tt)
           (request (js "shop.www.example.com") VUndefined)
           (js "shop.") (js "example.com")).
  - reflexivity.
  - intros before' after' Hocc. simpl in Hocc.
    do 5 (destruct before' as [|? before']; [discriminate Hocc|];
          injection Hocc as _ Hocc).
    simpl. lia.
Defined.

(** The theorem [ctxAddDomain_strips_www_prefix] at the host
    'www.www.example.com': one 'www.' goes, the next one stays. *)
Lemma ctxAddDomain_strips_www_prefix_witness :
  ctxAddDomain (ret tt) (request (js "www.www.example.com") VUndefined)
  = ret tt (set_ctx (set_state_domain (js "www.example.com")
                       (w_ctx (request (js "www.www.example.com")
                                 VUndefined)))
                    (request (js "www.www.example.com") VUndefined)).
Proof.
  apply (ctxAddDomain_strips_www_prefix (ret tt)
           (request (js "www.www.example.com") VUndefined)
           (js "www.example.com")).
  reflexivity.
Defined.

(** The theorem [ctxAddDomain_keeps_host_without_www] at the host
    'localhost'. *)
Lemma ctxAddDomain_keeps_host_without_www_witness :
  ctxAddDomain (ret tt) (request (js "localhost") VUndefined)
  = ret tt (set_ctx (set_state_domain (js "localhost")
                       (w_ctx (request (js "localhost") VUndefined)))
                    (request (js "localhost") VUndefined)).
Proof.
  apply (ctxAddDomain_keeps_host_without_www (ret tt)
           (request (js "localhost") VUndefined)).
  intros before after Hocc. simpl in Hocc.
  repeat (destruct before as [|? before]; [discriminate Hocc|];
          injection Hocc as _ Hocc).
  destruct before; discriminate Hocc.
Defined.
